(** * ts-command-line: the parameter classes of CommandLineParameter.ts

    A shallow embedding of [libraries/ts-command-line/src/CommandLineParameter.ts]:
    the five parameter classes, their constructors (which validate the
    definition object and throw on a malformed one), the value slot with
    [_setValue] and [value], and the regular expressions the constructors
    test names against.

    JavaScript strings are modelled as [string], a sequence of 8-bit
    characters read as code units; the names the constructors accept are all
    ASCII.  [undefined] in an optional property is [None]; a constructor that
    may throw returns a [Completion]. *)

From Stdlib Require Import Bool List ZArith Lia Ascii String.
Import ListNotations.

Open Scope list_scope.
Open Scope string_scope.

(* ================================================================= *)
(** ** Characters and strings *)

(** The double-quote character, which the error messages put around the
    offending name. *)
Definition dq : string := String "034"%char EmptyString.

(** [lo <= c <= hi] on character codes. *)
Definition in_range (lo hi c : ascii) : bool :=
  (N_of_ascii lo <=? N_of_ascii c)%N && (N_of_ascii c <=? N_of_ascii hi)%N.

Definition is_lower (c : ascii) : bool := in_range "a" "z" c.
Definition is_upper (c : ascii) : bool := in_range "A" "Z" c.
Definition is_digit (c : ascii) : bool := in_range "0" "9" c.
Definition is_underscore (c : ascii) : bool := in_range "_" "_" c.

(** Every character of [s] satisfies [p]. *)
Fixpoint string_forallb (p : ascii -> bool) (s : string) : bool :=
  match s with
  | EmptyString => true
  | String c s' => p c && string_forallb p s'
  end.

(** The string read backwards; the ends of two messages are compared on
    it. *)
Fixpoint str_rev (s : string) : string :=
  match s with
  | EmptyString => EmptyString
  | String c s' => str_rev s' ++ String c EmptyString
  end.

(** The UTF-16 code units of a string.  A [string] holds the JavaScript
    strings whose code units are all below 256; the result of upper-casing
    one of them may have larger code units, so it is given by its code
    units. *)
Fixpoint codeUnits (s : string) : list N :=
  match s with
  | EmptyString => []
  | String c s' => N_of_ascii c :: codeUnits s'
  end.

(** Equality of two strings given by their code units. *)
Fixpoint units_eqb (u v : list N) : bool :=
  match u, v with
  | [], [] => true
  | a :: u', b :: v' => (a =? b)%N && units_eqb u' v'
  | _, _ => false
  end.

(** The code units of a-z. *)
Definition is_lower_unit (u : N) : bool := (97 <=? u)%N && (u <=? 122)%N.

(** [String.prototype.toUpperCase] on one code unit below 256, by the
    Unicode case mappings: a-z go to A-Z; U+00E0-U+00FE, but for the
    division sign U+00F7, go to U+00C0-U+00DE; the micro sign U+00B5 goes
    to U+039C, the sharp s U+00DF to the two letters SS, and U+00FF to
    U+0178; every other code unit is left alone. *)
Definition upcase (c : ascii) : list N :=
  let n := N_of_ascii c in
  if is_lower c then [(n - 32)%N]
  else if (n =? 181)%N then [924%N]
  else if (n =? 223)%N then [83%N; 83%N]
  else if (n =? 255)%N then [376%N]
  else if (224 <=? n)%N && (n <=? 254)%N && negb (n =? 247)%N
  then [(n - 32)%N]
  else [n].

Fixpoint toUpperCase (s : string) : list N :=
  match s with
  | EmptyString => []
  | String c s' => upcase c ++ toUpperCase s'
  end.

(** [Array.prototype.indexOf] on an array of strings: the index of the first
    element strictly equal to [x], or -1. *)
Fixpoint indexOf_from (i : Z) (l : list string) (x : string) : Z :=
  match l with
  | [] => (-1)%Z
  | y :: l' => if String.eqb y x then i else indexOf_from (i + 1)%Z l' x
  end.

Definition indexOf (l : list string) (x : string) : Z := indexOf_from 0%Z l x.

(** [Array.prototype.toString] on an array of strings: the elements joined
    by commas. *)
Definition Array_toString (l : list string) : string := String.concat "," l.

(** Truthiness of a value that is a string or [undefined]: only the empty
    string and [undefined] are falsy. *)
Definition truthy (v : option string) : bool :=
  match v with
  | None => false
  | Some EmptyString => false
  | Some (String _ _) => true
  end.

(** Strict equality [===] between two values that are strings or
    [undefined]. *)
Definition strict_eq (v w : option string) : bool :=
  match v, w with
  | None, None => true
  | Some a, Some b => String.eqb a b
  | _, _ => false
  end.

(** Strict equality between a string given by its code units and a value
    that is a string or [undefined]. *)
Definition strict_eq_units (u : list N) (v : option string) : bool :=
  match v with
  | Some s => units_eqb u (codeUnits s)
  | None => false
  end.

(** A value of type [any]: what [_setValue] receives and the value slot
    holds.  Numbers are the integer-valued ones. *)
#[local] Unset Elimination Schemes.
Inductive JSValue : Type :=
| JSUndefined : JSValue
| JSNull : JSValue
| JSBoolean : bool -> JSValue
| JSNumber : Z -> JSValue
| JSString : string -> JSValue
| JSArray : list JSValue -> JSValue.
#[local] Set Elimination Schemes.

(* ================================================================= *)
(** ** Exceptions and completions *)

(** What a constructor throws: [new Error(message)] from a [throw]
    statement, or the engine's own [TypeError] when a method is called on
    [undefined] (its message depends on the engine and is not modelled). *)
Inductive Exception : Type :=
| Error (message : string)
| TypeError.

Inductive Completion (A : Type) : Type :=
| Normal (a : A)
| Throw (e : Exception).

Arguments Normal {A} a.
Arguments Throw {A} e.

Definition bind {A B : Type} (m : Completion A) (k : A -> Completion B)
  : Completion B :=
  match m with
  | Normal a => k a
  | Throw e => Throw e
  end.

Notation "x <- m ;; k" := (bind m (fun x => k))
  (at level 61, m at next level, right associativity).
Notation "m ;; k" := (bind m (fun _ => k))
  (at level 61, right associativity).

(** [if (cond) { throw e; }] *)
Definition throwIf (cond : bool) (e : Exception) : Completion unit :=
  if cond then Throw e else Normal tt.

Definition completes {A : Type} (m : Completion A) : Prop :=
  exists a, m = Normal a.

Definition fails {A : Type} (m : Completion A) : Prop :=
  exists e, m = Throw e.

(* ================================================================= *)
(** ** Regular expressions *)

Module RegExp.

(** A character class [[...]] or [[^...]]: a list of inclusive ranges
    (a single character [c] is the range [c-c]). *)
Record CharClass : Type := {
  negated : bool;
  ranges : list (ascii * ascii)
}.

Definition in_ranges (rs : list (ascii * ascii)) (c : ascii) : bool :=
  existsb (fun r => in_range (fst r) (snd r) c) rs.

Definition class_mem (cls : CharClass) (c : ascii) : bool :=
  xorb (negated cls) (in_ranges (ranges cls) c).

(** The pattern between [^] and [$]. [Void] and [Eps] do not occur in the
    source's patterns; derivatives produce them. *)
Inductive t : Type :=
| Void : t
| Eps : t
| Chr : ascii -> t
| Class : CharClass -> t
| Cat : t -> t -> t
| Alt : t -> t -> t
| Star : t -> t
| Plus : t -> t.

(** The language of a pattern. *)
Inductive Matches : t -> string -> Prop :=
| MEps : Matches Eps EmptyString
| MChr c : Matches (Chr c) (String c EmptyString)
| MClass cls c :
    class_mem cls c = true -> Matches (Class cls) (String c EmptyString)
| MCat r1 r2 s1 s2 :
    Matches r1 s1 -> Matches r2 s2 -> Matches (Cat r1 r2) (s1 ++ s2)
| MAltL r1 r2 s : Matches r1 s -> Matches (Alt r1 r2) s
| MAltR r1 r2 s : Matches r2 s -> Matches (Alt r1 r2) s
| MStar0 r : Matches (Star r) EmptyString
| MStarS r s1 s2 :
    Matches r s1 -> Matches (Star r) s2 -> Matches (Star r) (s1 ++ s2)
| MPlus r s1 s2 :
    Matches r s1 -> Matches (Star r) s2 -> Matches (Plus r) (s1 ++ s2).

Fixpoint nullable (r : t) : bool :=
  match r with
  | Void => false
  | Eps => true
  | Chr _ => false
  | Class _ => false
  | Cat r1 r2 => nullable r1 && nullable r2
  | Alt r1 r2 => nullable r1 || nullable r2
  | Star _ => true
  | Plus r1 => nullable r1
  end.

Fixpoint deriv (a : ascii) (r : t) : t :=
  match r with
  | Void => Void
  | Eps => Void
  | Chr c => if Ascii.eqb a c then Eps else Void
  | Class cls => if class_mem cls a then Eps else Void
  | Cat r1 r2 =>
      if nullable r1
      then Alt (Cat (deriv a r1) r2) (deriv a r2)
      else Cat (deriv a r1) r2
  | Alt r1 r2 => Alt (deriv a r1) (deriv a r2)
  | Star r1 => Cat (deriv a r1) (Star r1)
  | Plus r1 => Cat (deriv a r1) (Star r1)
  end.

(** [/^r$/.test(s)] (no flags, so [$] is the end of the input): whether the
    whole of [s] is in the language of [r]. *)
Fixpoint test (r : t) (s : string) : bool :=
  match s with
  | EmptyString => nullable r
  | String a s' => test (deriv a r) s'
  end.

(** [s.match(/[cls]/)] for a pattern that is one character class, without
    the global flag: the leftmost character of [s] in the class, as the
    one-character string [match[0]], or [null]. *)
Fixpoint String_match (s : string) (cls : CharClass) : option string :=
  match s with
  | EmptyString => None
  | String c s' =>
      if class_mem cls c then Some (String c EmptyString)
      else String_match s' cls
  end.

End RegExp.

(* ================================================================= *)
(** ** The definition objects *)

Module CommandLineDefinition.

(** Modelled from the spec: the interfaces of [./CommandLineDefinition],
    which the parameter classes import and which is not among the sources.
    The specification's configuration surface gives every kind
    [parameterLongName], an optional [parameterShortName] and
    [description]; the kinds it calls argument-bearing (Choice among them)
    an optional [argumentName]; and Choice [alternatives] and an optional
    [defaultValue].  An optional property that is missing or [undefined]
    is [None]. *)
Record IBaseCommandLineDefinition : Type := {
  parameterLongName : string;
  parameterShortName : option string;
  description : string
}.

Record IBaseCommandLineDefinitionWithArgument : Type := {
  withArgument_base : IBaseCommandLineDefinition;
  argumentName : option string
}.

Record ICommandLineChoiceDefinition : Type := {
  choice_base : IBaseCommandLineDefinitionWithArgument;
  alternatives : list string;
  defaultValue : option string
}.

Definition ICommandLineFlagDefinition : Type := IBaseCommandLineDefinition.
Definition ICommandLineIntegerDefinition : Type :=
  IBaseCommandLineDefinitionWithArgument.
Definition ICommandLineStringDefinition : Type :=
  IBaseCommandLineDefinitionWithArgument.
Definition ICommandLineStringListDefinition : Type :=
  IBaseCommandLineDefinitionWithArgument.

End CommandLineDefinition.

Module D := CommandLineDefinition.

(* ================================================================= *)
(** ** The parameter classes *)

Inductive CommandLineParameterKind : Type :=
| Choice
| Flag
| Integer
| String_
| StringList.

(** The numeric value of an enum member. *)
Definition CommandLineParameterKind_value (k : CommandLineParameterKind) : Z :=
  match k with
  | Choice => 0
  | Flag => 1
  | Integer => 2
  | String_ => 3
  | StringList => 4
  end%Z.

(** The fields of an instance of the abstract class [CommandLineParameter<T>].
    [_parserKey] and [_value] are not assigned by the constructor, so they
    read [undefined] until someone sets them. *)
Record CommandLineParameter : Type := {
  _parserKey : option string;
  longName : string;
  shortName : option string;
  description : string;
  _value : JSValue
}.

(** [CommandLineParameterWithArgument<T> extends CommandLineParameter<T>]. *)
Record CommandLineParameterWithArgument : Type := {
  withArgument_super : CommandLineParameter;
  argumentName : option string
}.

(** [CommandLineChoiceParameter extends CommandLineParameter<string>]. *)
Record CommandLineChoiceParameter : Type := {
  choice_super : CommandLineParameter;
  alternatives : list string;
  defaultValue : option string
}.

(** The three classes that extend [CommandLineParameterWithArgument] and
    [CommandLineFlagParameter] add no field of their own. *)
Definition CommandLineFlagParameter : Type := CommandLineParameter.
Definition CommandLineIntegerParameter : Type :=
  CommandLineParameterWithArgument.
Definition CommandLineStringParameter : Type :=
  CommandLineParameterWithArgument.
Definition CommandLineStringListParameter : Type :=
  CommandLineParameterWithArgument.

(** [[a-z0-9]] *)
Definition lowerAlnum : RegExp.CharClass :=
  {| RegExp.negated := false;
     RegExp.ranges := [("a", "z"); ("0", "9")]%char |}.

(** [[a-zA-Z0-9]] *)
Definition alnum : RegExp.CharClass :=
  {| RegExp.negated := false;
     RegExp.ranges := [("a", "z"); ("A", "Z"); ("0", "9")]%char |}.

(** The group [(-[a-z0-9]+)] *)
Definition dashSegment : RegExp.t :=
  RegExp.Cat (RegExp.Chr "-") (RegExp.Plus (RegExp.Class lowerAlnum)).

(** [/^-(-[a-z0-9]+)+$/] *)
Definition _longNameRegExp : RegExp.t :=
  RegExp.Cat (RegExp.Chr "-") (RegExp.Plus dashSegment).

(** [/^-[a-zA-Z0-9]$/] *)
Definition _shortNameRegExp : RegExp.t :=
  RegExp.Cat (RegExp.Chr "-") (RegExp.Class alnum).

(** [/[^A-Z_0-9]/] *)
Definition _invalidArgumentNameRegExp : RegExp.CharClass :=
  {| RegExp.negated := true;
     RegExp.ranges := [("A", "Z"); ("_", "_"); ("0", "9")]%char |}.

(** The messages of the seven [throw] statements. *)
Definition longNameMessage (name : string) : string :=
  "Invalid name: " ++ dq ++ name ++ dq ++ ". The parameter long name must be"
  ++ " lower-case and use dash delimiters (e.g. " ++ dq ++ "--do-a-thing"
  ++ dq ++ ")".

Definition shortNameMessage (name : string) : string :=
  "Invalid name: " ++ dq ++ name ++ dq ++ ". The parameter short name must be"
  ++ " a dash followed by a single letter (e.g. " ++ dq ++ "-a" ++ dq ++ ")".

Definition emptyArgumentNameMessage : string :=
  "The argument name cannot be an empty string."
  ++ " (For the default name, specify undefined.)".

Definition upperCaseMessage (name : string) : string :=
  "Invalid name: " ++ dq ++ name ++ dq
  ++ ". The argument name must be all upper case.".

Definition invalidCharacterMessage (name ch : string) : string :=
  "The argument name " ++ dq ++ name ++ dq
  ++ " contains an invalid character " ++ dq ++ ch ++ dq ++ "."
  ++ " Only upper-case letters, numbers, and underscores are allowed.".

Definition alternativesMessage : string :=
  "When defining a choice parameter,"
  ++ " the alternatives list must contain at least one value.".

Definition defaultValueMessage (value : string) (alts : list string) : string :=
  "The specified default value " ++ dq ++ value ++ dq
  ++ " is not one of the available options: " ++ Array_toString alts.

(** [ToString] of a value that is a string or [undefined]: what a template
    literal interpolates and what [RegExp.prototype.test] matches against. *)
Definition interpolate (v : option string) : string :=
  match v with
  | Some s => s
  | None => "undefined"
  end.

(** [v.toUpperCase()] for [v] a string or [undefined]: calling a method on
    [undefined] throws a [TypeError]. *)
Definition call_toUpperCase (v : option string) : Completion (list N) :=
  match v with
  | Some s => Normal (toUpperCase s)
  | None => Throw TypeError
  end.

(** [v.match(re)], likewise. *)
Definition call_match (v : option string) (cls : RegExp.CharClass)
  : Completion (option string) :=
  match v with
  | Some s => Normal (RegExp.String_match s cls)
  | None => Throw TypeError
  end.

(** The constructor of [CommandLineParameter]. *)
Definition CommandLineParameter_constructor
    (definition : D.IBaseCommandLineDefinition)
  : Completion CommandLineParameter :=
  throwIf (negb (RegExp.test _longNameRegExp (D.parameterLongName definition)))
    (Error (longNameMessage (D.parameterLongName definition))) ;;
  (if truthy (D.parameterShortName definition) then
     throwIf
       (negb (RegExp.test _shortNameRegExp
                (interpolate (D.parameterShortName definition))))
       (Error (shortNameMessage (interpolate (D.parameterShortName definition))))
   else Normal tt) ;;
  Normal {| _parserKey := None;
            longName := D.parameterLongName definition;
            shortName := D.parameterShortName definition;
            description := D.description definition;
            _value := JSUndefined |}.

(** The constructor of [CommandLineParameterWithArgument]. *)
Definition CommandLineParameterWithArgument_constructor
    (definition : D.IBaseCommandLineDefinitionWithArgument)
  : Completion CommandLineParameterWithArgument :=
  super <- CommandLineParameter_constructor (D.withArgument_base definition) ;;
  throwIf (strict_eq (D.argumentName definition) (Some EmptyString))
    (Error emptyArgumentNameMessage) ;;
  upper <- call_toUpperCase (D.argumentName definition) ;;
  throwIf (negb (strict_eq_units upper (D.argumentName definition)))
    (Error (upperCaseMessage (interpolate (D.argumentName definition)))) ;;
  match_ <- call_match (D.argumentName definition) _invalidArgumentNameRegExp ;;
  match match_ with
  | Some match_0 =>
      Throw (Error (invalidCharacterMessage
                      (interpolate (D.argumentName definition)) match_0))
  | None =>
      Normal {| withArgument_super := super;
                argumentName := D.argumentName definition |}
  end.

(** The constructor of [CommandLineChoiceParameter]: it calls the constructor
    of [CommandLineParameter], its direct base class. *)
Definition CommandLineChoiceParameter_constructor
    (definition : D.ICommandLineChoiceDefinition)
  : Completion CommandLineChoiceParameter :=
  super <- CommandLineParameter_constructor
             (D.withArgument_base (D.choice_base definition)) ;;
  throwIf (Z.of_nat (List.length (D.alternatives definition)) <=? 1)%Z
    (Error alternativesMessage) ;;
  throwIf
    (truthy (D.defaultValue definition)
     && (indexOf (D.alternatives definition)
           (interpolate (D.defaultValue definition)) =? -1)%Z)
    (Error (defaultValueMessage (interpolate (D.defaultValue definition))
              (D.alternatives definition))) ;;
  Normal {| choice_super := super;
            alternatives := D.alternatives definition;
            defaultValue := D.defaultValue definition |}.

Definition CommandLineFlagParameter_constructor
    (definition : D.ICommandLineFlagDefinition)
  : Completion CommandLineFlagParameter :=
  CommandLineParameter_constructor definition.

Definition CommandLineIntegerParameter_constructor
    (definition : D.ICommandLineIntegerDefinition)
  : Completion CommandLineIntegerParameter :=
  CommandLineParameterWithArgument_constructor definition.

Definition CommandLineStringParameter_constructor
    (definition : D.ICommandLineStringDefinition)
  : Completion CommandLineStringParameter :=
  CommandLineParameterWithArgument_constructor definition.

Definition CommandLineStringListParameter_constructor
    (definition : D.ICommandLineStringListDefinition)
  : Completion CommandLineStringListParameter :=
  CommandLineParameterWithArgument_constructor definition.

(** [_setValue] and the [value] getter, as [CommandLineParameter] declares
    them. *)
Definition CommandLineParameter__setValue
    (this : CommandLineParameter) (data : JSValue) : CommandLineParameter :=
  {| _parserKey := _parserKey this;
     longName := longName this;
     shortName := shortName this;
     description := description this;
     _value := data |}.

Definition CommandLineParameter_value (this : CommandLineParameter) : JSValue :=
  _value this.

(** An instance of one of the five concrete classes. *)
Inductive AnyParameter : Type :=
| ChoiceParameter (p : CommandLineChoiceParameter)
| FlagParameter (p : CommandLineFlagParameter)
| IntegerParameter (p : CommandLineIntegerParameter)
| StringParameter (p : CommandLineStringParameter)
| StringListParameter (p : CommandLineStringListParameter).

(** The [kind] getter each concrete class overrides. *)
Definition kind (this : AnyParameter) : CommandLineParameterKind :=
  match this with
  | ChoiceParameter _ => Choice
  | FlagParameter _ => Flag
  | IntegerParameter _ => Integer
  | StringParameter _ => String_
  | StringListParameter _ => StringList
  end.

(** The [CommandLineParameter] part of an instance. *)
Definition super (this : AnyParameter) : CommandLineParameter :=
  match this with
  | ChoiceParameter p => choice_super p
  | FlagParameter p => p
  | IntegerParameter p | StringParameter p | StringListParameter p =>
      withArgument_super p
  end.

(** The inherited [_setValue] on an instance: the other fields of the
    object are those it had. *)
Definition _setValue (this : AnyParameter) (data : JSValue) : AnyParameter :=
  let withArgument p :=
    {| withArgument_super :=
         CommandLineParameter__setValue (withArgument_super p) data;
       argumentName := argumentName p |} in
  match this with
  | ChoiceParameter p =>
      ChoiceParameter
        {| choice_super := CommandLineParameter__setValue (choice_super p) data;
           alternatives := alternatives p;
           defaultValue := defaultValue p |}
  | FlagParameter p => FlagParameter (CommandLineParameter__setValue p data)
  | IntegerParameter p => IntegerParameter (withArgument p)
  | StringParameter p => StringParameter (withArgument p)
  | StringListParameter p => StringListParameter (withArgument p)
  end.

(** The inherited [value] getter. *)
Definition value (this : AnyParameter) : JSValue :=
  CommandLineParameter_value (super this).

(** The own properties of an instance beyond those of [CommandLineParameter]:
    [argumentName] exists on the classes that extend
    [CommandLineParameterWithArgument]; [alternatives] and [defaultValue] on
    [CommandLineChoiceParameter]. *)
Definition get_argumentName (this : AnyParameter) : option (option string) :=
  match this with
  | IntegerParameter p | StringParameter p | StringListParameter p =>
      Some (argumentName p)
  | ChoiceParameter _ | FlagParameter _ => None
  end.

Definition get_alternatives (this : AnyParameter) : option (list string) :=
  match this with
  | ChoiceParameter p => Some (alternatives p)
  | _ => None
  end.

Definition get_defaultValue (this : AnyParameter) : option (option string) :=
  match this with
  | ChoiceParameter p => Some (defaultValue p)
  | _ => None
  end.

(** A definition object together with the class it is handed to. *)
Inductive AnyDefinition : Type :=
| ChoiceDefinition (d : D.ICommandLineChoiceDefinition)
| FlagDefinition (d : D.ICommandLineFlagDefinition)
| IntegerDefinition (d : D.ICommandLineIntegerDefinition)
| StringDefinition (d : D.ICommandLineStringDefinition)
| StringListDefinition (d : D.ICommandLineStringListDefinition).

(** The base part of a definition, which every constructor passes up to
    [CommandLineParameter]. *)
Definition baseOf (d : AnyDefinition) : D.IBaseCommandLineDefinition :=
  match d with
  | ChoiceDefinition d => D.withArgument_base (D.choice_base d)
  | FlagDefinition d => d
  | IntegerDefinition d | StringDefinition d | StringListDefinition d =>
      D.withArgument_base d
  end.

Definition kindOf (d : AnyDefinition) : CommandLineParameterKind :=
  match d with
  | ChoiceDefinition _ => Choice
  | FlagDefinition _ => Flag
  | IntegerDefinition _ => Integer
  | StringDefinition _ => String_
  | StringListDefinition _ => StringList
  end.

(** [new C(definition)] for the class [C] of the definition's kind. *)
Definition construct (d : AnyDefinition) : Completion AnyParameter :=
  match d with
  | ChoiceDefinition d =>
      p <- CommandLineChoiceParameter_constructor d ;; Normal (ChoiceParameter p)
  | FlagDefinition d =>
      p <- CommandLineFlagParameter_constructor d ;; Normal (FlagParameter p)
  | IntegerDefinition d =>
      p <- CommandLineIntegerParameter_constructor d ;;
      Normal (IntegerParameter p)
  | StringDefinition d =>
      p <- CommandLineStringParameter_constructor d ;;
      Normal (StringParameter p)
  | StringListDefinition d =>
      p <- CommandLineStringListParameter_constructor d ;;
      Normal (StringListParameter p)
  end.

(** The three argument-bearing classes, for statements that range over
    them. *)
Inductive ArgumentKind : Type := ArgInteger | ArgString | ArgStringList.

Definition withArgument (k : ArgumentKind)
    (d : D.IBaseCommandLineDefinitionWithArgument) : AnyDefinition :=
  match k with
  | ArgInteger => IntegerDefinition d
  | ArgString => StringDefinition d
  | ArgStringList => StringListDefinition d
  end.

Definition wrapArgument (k : ArgumentKind)
    (p : CommandLineParameterWithArgument) : AnyParameter :=
  match k with
  | ArgInteger => IntegerParameter p
  | ArgString => StringParameter p
  | ArgStringList => StringListParameter p
  end.

(** The object [CommandLineParameter]'s constructor returns when none of
    its checks throws. *)
Definition baseInstance (definition : D.IBaseCommandLineDefinition)
  : CommandLineParameter :=
  {| _parserKey := None;
     longName := D.parameterLongName definition;
     shortName := D.parameterShortName definition;
     description := D.description definition;
     _value := JSUndefined |}.

(** The exceptions that the statements after the [super(definition)] call
    can throw. *)
Inductive LaterError : Exception -> Prop :=
| LaterEmptyArgumentName : LaterError (Error emptyArgumentNameMessage)
| LaterUpperCase name : LaterError (Error (upperCaseMessage name))
| LaterInvalidCharacter name ch :
    LaterError (Error (invalidCharacterMessage name ch))
| LaterAlternatives : LaterError (Error alternativesMessage)
| LaterDefaultValue v alts : LaterError (Error (defaultValueMessage v alts))
| LaterTypeError : LaterError TypeError.

(* ================================================================= *)
(** ** The grammars, in the specification's words *)

(** A lower-case alphanumeric segment: one or more of a-z, 0-9. *)
Definition is_lower_alnum (c : ascii) : bool := is_lower c || is_digit c.

Definition Segment (g : string) : Prop :=
  g <> EmptyString /\ string_forallb is_lower_alnum g = true.

(** Each segment with its leading dash, one after the other. *)
Fixpoint dashed (segments : list string) : string :=
  match segments with
  | [] => EmptyString
  | g :: rest => "-" ++ g ++ dashed rest
  end.

(** The long-name grammar: one leading dash, followed by one or more
    dash-delimited lower-case alphanumeric segments. *)
Definition LongNameGrammar (s : string) : Prop :=
  exists segments,
    segments <> [] /\ Forall Segment segments /\ s = "-" ++ dashed segments.

(** The short-name grammar: a dash followed by exactly one letter or digit. *)
Definition is_alnum (c : ascii) : bool := is_lower c || is_upper c || is_digit c.

Definition ShortNameGrammar (s : string) : Prop :=
  exists c, is_alnum c = true /\ s = String "-" (String c EmptyString).

(** The characters of an argument name: A-Z, 0-9 and the underscore. *)
Definition is_argument_char (c : ascii) : bool :=
  is_upper c || is_digit c || is_underscore c.

Definition ArgumentNameChars (s : string) : Prop :=
  string_forallb is_argument_char s = true.

(** [c] is the first character of [s] outside A-Z, 0-9, underscore. *)
Definition FirstDisallowed (s : string) (c : ascii) : Prop :=
  exists before after,
    s = before ++ String c after
    /\ string_forallb is_argument_char before = true
    /\ is_argument_char c = false.

(** The message of an error mentions the string [x]. *)
Definition mentions (message x : string) : Prop :=
  exists before after, message = before ++ x ++ after.

(* ================================================================= *)
(** ** Sample definition objects *)

Definition sampleBase : D.IBaseCommandLineDefinition :=
  {| D.parameterLongName := "--max-count";
     D.parameterShortName := None;
     D.description := "The largest number of items" |}.

Definition sampleShort : D.IBaseCommandLineDefinition :=
  {| D.parameterLongName := "--verbose";
     D.parameterShortName := Some "-v";
     D.description := "Show more" |}.

Definition sampleEmptyShort : D.IBaseCommandLineDefinition :=
  {| D.parameterLongName := "--verbose";
     D.parameterShortName := Some EmptyString;
     D.description := "Show more" |}.

Definition sampleTwoCharShort : D.IBaseCommandLineDefinition :=
  {| D.parameterLongName := "--verbose";
     D.parameterShortName := Some "-vv";
     D.description := "Show more" |}.

Definition sampleWithArgument (name : option string)
  : D.IBaseCommandLineDefinitionWithArgument :=
  {| D.withArgument_base := sampleBase; D.argumentName := name |}.

Definition sampleChoice (name defaultValue : option string)
    (alternatives : list string) : D.ICommandLineChoiceDefinition :=
  {| D.choice_base :=
       {| D.withArgument_base :=
            {| D.parameterLongName := "--colour";
               D.parameterShortName := None;
               D.description := "The colour of the output" |};
          D.argumentName := name |};
     D.alternatives := alternatives;
     D.defaultValue := defaultValue |}.

(* ================================================================= *)
(** ** What the constructors accept, what an instance keeps *)

(** A short name that passes the constructor: absent, empty, or a dash and
    one letter or digit. *)
Definition ShortNameAccepted (v : option string) : Prop :=
  v = None \/ v = Some EmptyString
  \/ exists s, v = Some s /\ ShortNameGrammar s.

Definition NamesAccepted (definition : D.IBaseCommandLineDefinition) : Prop :=
  LongNameGrammar (D.parameterLongName definition)
  /\ ShortNameAccepted (D.parameterShortName definition).

(** An argument name that passes: a non-empty string of A-Z, 0-9 and
    underscores. *)
Definition ArgumentNameAccepted (v : option string) : Prop :=
  exists n, v = Some n /\ n <> EmptyString /\ ArgumentNameChars n.

(** Alternatives and a default that pass: two alternatives or more, and a
    default that is absent, empty, or one of them. *)
Definition ChoiceAccepted (alts : list string) (v : option string) : Prop :=
  (2 <= List.length alts)%nat
  /\ (v = None \/ v = Some EmptyString \/ exists x, v = Some x /\ In x alts).

(** The state of an instance that its constructor has let through. *)
Definition WellFormed (p : AnyParameter) : Prop :=
  LongNameGrammar (longName (super p))
  /\ ShortNameAccepted (shortName (super p))
  /\ match p with
     | ChoiceParameter c => ChoiceAccepted (alternatives c) (defaultValue c)
     | FlagParameter _ => True
     | IntegerParameter a | StringParameter a | StringListParameter a =>
         ArgumentNameAccepted (argumentName a)
     end.

(** What the constructor of the definition's class looks at. *)
Definition Accepted (d : AnyDefinition) : Prop :=
  NamesAccepted (baseOf d)
  /\ match d with
     | ChoiceDefinition c =>
         ChoiceAccepted (D.alternatives c) (D.defaultValue c)
     | FlagDefinition _ => True
     | IntegerDefinition a | StringDefinition a | StringListDefinition a =>
         ArgumentNameAccepted (D.argumentName a)
     end.

(** The instance whose fields are the definition's, with no parser key and
    no value. *)
Definition withArgumentInstance (a : D.IBaseCommandLineDefinitionWithArgument)
  : CommandLineParameterWithArgument :=
  {| withArgument_super := baseInstance (D.withArgument_base a);
     argumentName := D.argumentName a |}.

Definition instanceOf (d : AnyDefinition) : AnyParameter :=
  match d with
  | ChoiceDefinition c =>
      ChoiceParameter
        {| choice_super := baseInstance (D.withArgument_base (D.choice_base c));
           alternatives := D.alternatives c;
           defaultValue := D.defaultValue c |}
  | FlagDefinition b => FlagParameter (baseInstance b)
  | IntegerDefinition a => IntegerParameter (withArgumentInstance a)
  | StringDefinition a => StringParameter (withArgumentInstance a)
  | StringListDefinition a => StringListParameter (withArgumentInstance a)
  end.

(** The characters of a long name: a-z, 0-9 and the dash. *)
Definition is_longName_char (c : ascii) : bool :=
  is_lower_alnum c || Ascii.eqb c "-".

(** One [_setValue] call after the other, as over several parse passes. *)
Definition setValues (p : AnyParameter) (payloads : list JSValue)
  : AnyParameter :=
  fold_left _setValue payloads p.

(** The [argumentName], [alternatives] and [defaultValue] a definition hands
    to a class that stores them. *)
Definition definition_argumentName (d : AnyDefinition)
  : option (option string) :=
  match d with
  | IntegerDefinition a | StringDefinition a | StringListDefinition a =>
      Some (D.argumentName a)
  | ChoiceDefinition _ | FlagDefinition _ => None
  end.

Definition definition_alternatives (d : AnyDefinition)
  : option (list string) :=
  match d with
  | ChoiceDefinition c => Some (D.alternatives c)
  | _ => None
  end.

Definition definition_defaultValue (d : AnyDefinition)
  : option (option string) :=
  match d with
  | ChoiceDefinition c => Some (D.defaultValue c)
  | _ => None
  end.

(** The same definition object with another [description]. *)
Definition base_setDescription (text : string)
    (b : D.IBaseCommandLineDefinition) : D.IBaseCommandLineDefinition :=
  {| D.parameterLongName := D.parameterLongName b;
     D.parameterShortName := D.parameterShortName b;
     D.description := text |}.

Definition withArgument_setDescription (text : string)
    (a : D.IBaseCommandLineDefinitionWithArgument)
  : D.IBaseCommandLineDefinitionWithArgument :=
  {| D.withArgument_base := base_setDescription text (D.withArgument_base a);
     D.argumentName := D.argumentName a |}.

Definition setDescription (text : string) (d : AnyDefinition) : AnyDefinition :=
  match d with
  | ChoiceDefinition c =>
      ChoiceDefinition
        {| D.choice_base := withArgument_setDescription text (D.choice_base c);
           D.alternatives := D.alternatives c;
           D.defaultValue := D.defaultValue c |}
  | FlagDefinition b => FlagDefinition (base_setDescription text b)
  | IntegerDefinition a =>
      IntegerDefinition (withArgument_setDescription text a)
  | StringDefinition a => StringDefinition (withArgument_setDescription text a)
  | StringListDefinition a =>
      StringListDefinition (withArgument_setDescription text a)
  end.

(** The seven [throw] statements, and the messages each can produce. *)
Inductive Check : Type :=
| LongNameCheck
| ShortNameCheck
| EmptyArgumentNameCheck
| UpperCaseCheck
| InvalidCharacterCheck
| AlternativesCheck
| DefaultValueCheck.

Inductive MessageOf : Check -> string -> Prop :=
| MessageLongName name : MessageOf LongNameCheck (longNameMessage name)
| MessageShortName name : MessageOf ShortNameCheck (shortNameMessage name)
| MessageEmptyArgumentName :
    MessageOf EmptyArgumentNameCheck emptyArgumentNameMessage
| MessageUpperCase name : MessageOf UpperCaseCheck (upperCaseMessage name)
| MessageInvalidCharacter name ch :
    MessageOf InvalidCharacterCheck (invalidCharacterMessage name ch)
| MessageAlternatives : MessageOf AlternativesCheck alternativesMessage
| MessageDefaultValue v alts :
    MessageOf DefaultValueCheck (defaultValueMessage v alts).

(** The checks that the constructor of a class of each kind runs, its base
    classes' included. *)
Definition checksOf (k : CommandLineParameterKind) : list Check :=
  match k with
  | Flag => [LongNameCheck; ShortNameCheck]
  | Choice =>
      [LongNameCheck; ShortNameCheck; AlternativesCheck; DefaultValueCheck]
  | Integer | String_ | StringList =>
      [LongNameCheck; ShortNameCheck; EmptyArgumentNameCheck; UpperCaseCheck;
       InvalidCharacterCheck]
  end.

(* ================================================================= *)
(** * Properties *)

(** ** Strings *)

Lemma append_nil_r (s : string) : s ++ EmptyString = s.
Proof. induction s as [|c s IH]; simpl; [reflexivity | now rewrite IH]. Qed.

Lemma append_assoc (s t u : string) : (s ++ t) ++ u = s ++ (t ++ u).
Proof. induction s as [|c s IH]; simpl; [reflexivity | now rewrite IH]. Qed.

Lemma append_eq_nil (s t : string) :
  s ++ t = EmptyString -> s = EmptyString /\ t = EmptyString.
Proof. destruct s; simpl; intros H; [auto | discriminate]. Qed.

Lemma string_forallb_app (p : ascii -> bool) (s t : string) :
  string_forallb p (s ++ t) = string_forallb p s && string_forallb p t.
Proof.
  induction s as [|c s IH]; simpl; [reflexivity |].
  now rewrite IH, andb_assoc.
Qed.

(** ** Regular expressions: the matcher decides the language *)

Module RegExpFacts.
Import RegExp.

Create HintDb regexp.
#[local] Hint Constructors Matches : regexp.

Lemma Matches_Chr_inv c s : Matches (Chr c) s -> s = String c EmptyString.
Proof. inversion 1; reflexivity. Qed.

Lemma Matches_Class_inv cls s :
  Matches (Class cls) s ->
  exists c, s = String c EmptyString /\ class_mem cls c = true.
Proof. inversion 1; subst; eauto. Qed.

Lemma Matches_Cat_inv r1 r2 s :
  Matches (Cat r1 r2) s ->
  exists s1 s2, s = s1 ++ s2 /\ Matches r1 s1 /\ Matches r2 s2.
Proof. inversion 1; subst; eauto. Qed.

Lemma Matches_Alt_inv r1 r2 s :
  Matches (Alt r1 r2) s -> Matches r1 s \/ Matches r2 s.
Proof. inversion 1; subst; auto. Qed.

Lemma Matches_Plus_inv r s :
  Matches (Plus r) s ->
  exists s1 s2, s = s1 ++ s2 /\ Matches r s1 /\ Matches (Star r) s2.
Proof. inversion 1; subst; eauto. Qed.

Lemma Matches_nil_nullable r s :
  Matches r s -> s = EmptyString -> nullable r = true.
Proof.
  induction 1; intros E; simpl; try discriminate; try reflexivity.
  - apply append_eq_nil in E as [E1 E2]. now rewrite IHMatches1, IHMatches2.
  - now rewrite IHMatches.
  - rewrite IHMatches by assumption. apply orb_true_r.
  - apply append_eq_nil in E as [E1 _]. auto.
Qed.

Lemma nullable_Matches_nil r : nullable r = true -> Matches r EmptyString.
Proof.
  induction r; simpl; intros N; try discriminate; auto with regexp.
  - apply andb_true_iff in N as [N1 N2].
    change EmptyString with (EmptyString ++ EmptyString); auto with regexp.
  - apply orb_true_iff in N as [N | N]; auto with regexp.
  - change EmptyString with (EmptyString ++ EmptyString); auto with regexp.
Qed.

Lemma deriv_sound a r : forall s, Matches (deriv a r) s -> Matches r (String a s).
Proof.
  induction r; simpl; intros s H.
  - inversion H.
  - inversion H.
  - destruct (Ascii.eqb_spec a a0) as [->|]; inversion H; auto with regexp.
  - destruct (class_mem c a) eqn:M; inversion H; auto with regexp.
  - destruct (nullable r1) eqn:N.
    + apply Matches_Alt_inv in H as [H | H].
      * apply Matches_Cat_inv in H as (s1 & s2 & -> & H1 & H2).
        change (String a (s1 ++ s2)) with (String a s1 ++ s2).
        auto with regexp.
      * change (String a s) with (EmptyString ++ String a s).
        auto using nullable_Matches_nil with regexp.
    + apply Matches_Cat_inv in H as (s1 & s2 & -> & H1 & H2).
      change (String a (s1 ++ s2)) with (String a s1 ++ s2).
      auto with regexp.
  - apply Matches_Alt_inv in H as [H | H]; auto with regexp.
  - apply Matches_Cat_inv in H as (s1 & s2 & -> & H1 & H2).
    change (String a (s1 ++ s2)) with (String a s1 ++ s2).
    auto with regexp.
  - apply Matches_Cat_inv in H as (s1 & s2 & -> & H1 & H2).
    change (String a (s1 ++ s2)) with (String a s1 ++ s2).
    auto with regexp.
Qed.

Lemma deriv_complete r s :
  Matches r s -> forall a s', s = String a s' -> Matches (deriv a r) s'.
Proof.
  induction 1; intros a s' E; simpl; try discriminate.
  - injection E as -> <-. rewrite Ascii.eqb_refl. constructor.
  - injection E as -> <-. rewrite H. constructor.
  - destruct s1 as [|c s1]; simpl in E.
    + rewrite (Matches_nil_nullable r1 EmptyString) by auto.
      apply MAltR. auto.
    + injection E as -> <-.
      destruct (nullable r1); [apply MAltL |]; auto with regexp.
  - apply MAltL. auto.
  - apply MAltR. auto.
  - destruct s1 as [|c s1]; simpl in E.
    + apply IHMatches2 in E. exact E.
    + injection E as -> <-. auto with regexp.
  - destruct s1 as [|c s1]; simpl in E.
    + apply IHMatches2 in E. exact E.
    + injection E as -> <-. auto with regexp.
Qed.

(** [test] returns [true] exactly on the strings of the pattern's
    language. *)
Lemma test_Matches s : forall r, test r s = true <-> Matches r s.
Proof.
  induction s as [|a s IH]; intros r; simpl.
  - split; [apply nullable_Matches_nil | intros H].
    now apply (Matches_nil_nullable r EmptyString).
  - rewrite IH. split; [apply deriv_sound | intros H].
    now apply (deriv_complete r (String a s)).
Qed.

Lemma test_false_iff r s : test r s = false <-> ~ Matches r s.
Proof.
  rewrite <- test_Matches. destruct (test r s); split; intros H;
    try reflexivity; try discriminate; try (intros C; discriminate).
  now elim H.
Qed.

(** A starred or plussed character class. *)
Lemma Matches_Star_Class cls s :
  Matches (Star (Class cls)) s <-> string_forallb (class_mem cls) s = true.
Proof.
  split.
  - remember (Star (Class cls)) as r eqn:E. induction 1; try discriminate.
    + reflexivity.
    + injection E as ->.
      apply Matches_Class_inv in H as (c & -> & M). simpl.
      rewrite M. simpl. auto.
  - induction s as [|c s IH]; simpl; intros F; [constructor |].
    apply andb_true_iff in F as [M F].
    change (String c s) with (String c EmptyString ++ s).
    auto with regexp.
Qed.

Lemma Matches_Plus_Class cls s :
  Matches (Plus (Class cls)) s <->
  s <> EmptyString /\ string_forallb (class_mem cls) s = true.
Proof.
  split.
  - intros H. apply Matches_Plus_inv in H as (s1 & s2 & -> & H1 & H2).
    apply Matches_Class_inv in H1 as (c & -> & M).
    apply Matches_Star_Class in H2. simpl. rewrite M, H2.
    split; [discriminate | reflexivity].
  - intros [N F]. destruct s as [|c s]; [now elim N |].
    simpl in F. apply andb_true_iff in F as [M F].
    change (String c s) with (String c EmptyString ++ s).
    apply MPlus; [now constructor | now apply Matches_Star_Class].
Qed.

End RegExpFacts.

(** ** The patterns of the source and the grammars of the specification *)

Section Grammars.
Import RegExp RegExpFacts.

Lemma class_mem_lowerAlnum c : class_mem lowerAlnum c = is_lower_alnum c.
Proof.
  unfold class_mem, in_ranges, is_lower_alnum, is_lower, is_digit. simpl.
  now destruct (in_range "a" "z" c), (in_range "0" "9" c).
Qed.

Lemma class_mem_alnum c : class_mem alnum c = is_alnum c.
Proof.
  unfold class_mem, in_ranges, is_alnum, is_lower, is_upper, is_digit. simpl.
  now destruct (in_range "a" "z" c), (in_range "A" "Z" c), (in_range "0" "9" c).
Qed.

Lemma class_mem_invalidArgumentName c :
  class_mem _invalidArgumentNameRegExp c = negb (is_argument_char c).
Proof.
  unfold class_mem, in_ranges, is_argument_char, is_upper, is_digit,
    is_underscore. simpl.
  now destruct (in_range "A" "Z" c), (in_range "_" "_" c), (in_range "0" "9" c).
Qed.

Lemma string_forallb_ext (p q : ascii -> bool) s :
  (forall c, p c = q c) -> string_forallb p s = string_forallb q s.
Proof. intros E. induction s as [|c s IH]; simpl; [reflexivity | now rewrite E, IH]. Qed.

Lemma Matches_dashSegment s :
  Matches dashSegment s <-> exists g, Segment g /\ s = "-" ++ g.
Proof.
  unfold dashSegment, Segment. split.
  - intros H. apply Matches_Cat_inv in H as (s1 & s2 & -> & H1 & H2).
    apply Matches_Chr_inv in H1 as ->.
    apply Matches_Plus_Class in H2 as [N F].
    exists s2. rewrite <- (string_forallb_ext _ _ s2 class_mem_lowerAlnum).
    auto.
  - intros (g & [N F] & ->).
    change ("-" ++ g) with (String "-" EmptyString ++ g).
    apply MCat; [constructor |]. apply Matches_Plus_Class.
    rewrite (string_forallb_ext _ _ g class_mem_lowerAlnum). auto.
Qed.

Lemma Matches_Star_dashSegment s :
  Matches (Star dashSegment) s <->
  exists segments, Forall Segment segments /\ s = dashed segments.
Proof.
  split.
  - remember (Star dashSegment) as r eqn:E. induction 1; try discriminate.
    + exists []. auto.
    + injection E as ->.
      apply Matches_dashSegment in H as (g & G & ->).
      destruct (IHMatches2 eq_refl) as (rest & F & ->).
      exists (g :: rest). split; [now constructor | reflexivity].
  - intros (segments & F & ->). induction F as [|g rest G F IH]; simpl.
    + constructor.
    + change (String "-" (g ++ dashed rest)) with (("-" ++ g) ++ dashed rest).
      apply MStarS; [| exact IH]. apply Matches_dashSegment. eauto.
Qed.

(** The long-name pattern accepts exactly the strings of the long-name
    grammar. *)
Lemma longNameRegExp_grammar s :
  Matches _longNameRegExp s <-> LongNameGrammar s.
Proof.
  unfold LongNameGrammar. split.
  - intros H. apply Matches_Cat_inv in H as (s1 & s2 & -> & H1 & H2).
    apply Matches_Chr_inv in H1 as ->.
    apply Matches_Plus_inv in H2 as (t1 & t2 & -> & H2 & H3).
    apply Matches_dashSegment in H2 as (g & G & ->).
    apply Matches_Star_dashSegment in H3 as (rest & F & ->).
    exists (g :: rest).
    split; [discriminate | split; [now constructor | reflexivity]].
  - intros (segments & N & F & ->).
    destruct F as [|g rest G F]; [now elim N |].
    change ("-" ++ dashed (g :: rest))
      with (String "-" EmptyString ++ (("-" ++ g) ++ dashed rest)).
    apply MCat; [constructor |]. apply MPlus.
    + apply Matches_dashSegment. eauto.
    + apply Matches_Star_dashSegment. eauto.
Qed.

(** The short-name pattern accepts exactly the strings of the short-name
    grammar. *)
Lemma shortNameRegExp_grammar s :
  Matches _shortNameRegExp s <-> ShortNameGrammar s.
Proof.
  unfold ShortNameGrammar. split.
  - intros H. apply Matches_Cat_inv in H as (s1 & s2 & -> & H1 & H2).
    apply Matches_Chr_inv in H1 as ->.
    apply Matches_Class_inv in H2 as (c & -> & M).
    exists c. now rewrite <- class_mem_alnum.
  - intros (c & A & ->).
    change (String "-" (String c EmptyString))
      with (String "-" EmptyString ++ String c EmptyString).
    apply MCat; constructor. now rewrite class_mem_alnum.
Qed.

Lemma test_longName s :
  RegExp.test _longNameRegExp s = true <-> LongNameGrammar s.
Proof. now rewrite test_Matches, longNameRegExp_grammar. Qed.

Lemma test_longName_false s :
  RegExp.test _longNameRegExp s = false <-> ~ LongNameGrammar s.
Proof. now rewrite test_false_iff, longNameRegExp_grammar. Qed.

Lemma test_shortName s :
  RegExp.test _shortNameRegExp s = true <-> ShortNameGrammar s.
Proof. now rewrite test_Matches, shortNameRegExp_grammar. Qed.

Lemma test_shortName_false s :
  RegExp.test _shortNameRegExp s = false <-> ~ ShortNameGrammar s.
Proof. now rewrite test_false_iff, shortNameRegExp_grammar. Qed.

End Grammars.

(** ** Characters, upper-casing, searching *)

Lemma in_range_spec lo hi c :
  in_range lo hi c = true <->
  (N_of_ascii lo <= N_of_ascii c /\ N_of_ascii c <= N_of_ascii hi)%N.
Proof.
  unfold in_range. now rewrite andb_true_iff, !N.leb_le.
Qed.

Lemma units_eqb_spec u v : reflect (u = v) (units_eqb u v).
Proof.
  revert v. induction u as [| a u IH]; intros [| b v]; simpl;
    try (constructor; congruence).
  destruct (N.eqb_spec a b) as [-> | N]; simpl.
  - destruct (IH v) as [-> | N]; constructor; congruence.
  - constructor. congruence.
Qed.

Lemma units_eqb_refl u : units_eqb u u = true.
Proof. now destruct (units_eqb_spec u u). Qed.

Lemma codeUnits_app s t : codeUnits (s ++ t) = (codeUnits s ++ codeUnits t)%list.
Proof. induction s as [| c s IH]; simpl; [reflexivity | now rewrite IH]. Qed.

Example toUpperCase_samples :
  toUpperCase "Count_9z" = codeUnits "COUNT_9Z"
  /\ toUpperCase (String "233" EmptyString) = [201%N]
  /\ toUpperCase (String "223" EmptyString) = [83%N; 83%N]
  /\ toUpperCase (String "181" EmptyString) = [924%N]
  /\ toUpperCase (String "255" EmptyString) = [376%N]
  /\ toUpperCase (String "247" EmptyString) = [247%N]
  /\ toUpperCase (String "201" EmptyString) = [201%N].
Proof. repeat split. Qed.

(** Upper-casing leaves A-Z, 0-9 and the underscore alone. *)
Lemma upcase_argument_char c :
  is_argument_char c = true -> upcase c = [N_of_ascii c].
Proof.
  destruct c as [[] [] [] [] [] [] [] []]; vm_compute; intros H;
    first [reflexivity | discriminate H].
Qed.

(** An argument name made of A-Z, 0-9 and underscores is its own upper-case
    form. *)
Lemma toUpperCase_ArgumentNameChars s :
  ArgumentNameChars s -> toUpperCase s = codeUnits s.
Proof.
  unfold ArgumentNameChars. induction s as [|c s IH]; simpl; intros F.
  - reflexivity.
  - apply andb_true_iff in F as [C F].
    now rewrite (upcase_argument_char c C), IH.
Qed.

(** No code unit of an upper-cased string is one of a-z. *)
Lemma upcase_no_lower c :
  forallb (fun u => negb (is_lower_unit u)) (upcase c) = true.
Proof. destruct c as [[] [] [] [] [] [] [] []]; reflexivity. Qed.

Lemma toUpperCase_no_lower s :
  forallb (fun u => negb (is_lower_unit u)) (toUpperCase s) = true.
Proof.
  induction s as [| c s IH]; simpl; [reflexivity |].
  now rewrite forallb_app, upcase_no_lower, IH.
Qed.

(** So a string with one of a-z in it differs from its upper-case form. *)
Lemma toUpperCase_lower before c after :
  is_lower c = true ->
  toUpperCase (before ++ String c after)
  <> codeUnits (before ++ String c after).
Proof.
  intros L E.
  pose proof (toUpperCase_no_lower (before ++ String c after)) as F.
  rewrite E, codeUnits_app, forallb_app in F. simpl in F.
  apply andb_true_iff in F as [_ F]. apply andb_true_iff in F as [F _].
  change (is_lower_unit (N_of_ascii c)) with (is_lower c) in F.
  rewrite L in F. discriminate F.
Qed.

Lemma String_match_none s :
  RegExp.String_match s _invalidArgumentNameRegExp = None <->
  ArgumentNameChars s.
Proof.
  unfold ArgumentNameChars. induction s as [|c s IH]; simpl.
  - split; reflexivity.
  - rewrite class_mem_invalidArgumentName.
    destruct (is_argument_char c); simpl; [exact IH |].
    split; discriminate.
Qed.

(** [match[0]] is the first character outside A-Z, 0-9, underscore. *)
Lemma String_match_first s c :
  FirstDisallowed s c ->
  RegExp.String_match s _invalidArgumentNameRegExp = Some (String c EmptyString).
Proof.
  intros (before & after & -> & F & C).
  induction before as [|b before IH]; simpl in *.
  - now rewrite class_mem_invalidArgumentName, C.
  - apply andb_true_iff in F as [B F].
    rewrite class_mem_invalidArgumentName, B. simpl. auto.
Qed.

Lemma String_match_some s m :
  RegExp.String_match s _invalidArgumentNameRegExp = Some m ->
  exists c, m = String c EmptyString /\ FirstDisallowed s c.
Proof.
  induction s as [|b s IH]; simpl; [discriminate |].
  rewrite class_mem_invalidArgumentName.
  destruct (is_argument_char b) eqn:B; simpl; intros H.
  - destruct (IH H) as (c & -> & before & after & -> & F & C).
    exists c. split; [reflexivity |].
    exists (String b before), after. simpl. now rewrite B, F.
  - injection H as <-. exists b. split; [reflexivity |].
    exists EmptyString, s. auto.
Qed.

Lemma indexOf_from_spec l x :
  forall i, (0 <= i)%Z ->
    (In x l -> (i <= indexOf_from i l x)%Z) /\
    (~ In x l -> indexOf_from i l x = (-1)%Z).
Proof.
  induction l as [|y l IH]; simpl; intros i Hi.
  - split; [intros [] | reflexivity].
  - destruct (String.eqb_spec y x) as [-> | N].
    + split; [lia | intros H; elim H; auto].
    + destruct (IH (i + 1)%Z ltac:(lia)) as [IH1 IH2].
      split.
      * intros [E | I]; [now elim N |]. specialize (IH1 I). lia.
      * intros H. apply IH2. intros I. apply H. auto.
Qed.

(** [indexOf] answers -1 exactly for a string that is not an element. *)
Lemma indexOf_minus_one l x : indexOf l x = (-1)%Z <-> ~ In x l.
Proof.
  unfold indexOf. destruct (indexOf_from_spec l x 0%Z ltac:(lia)) as [H1 H2].
  split; [| exact H2]. intros E I. specialize (H1 I). lia.
Qed.

(** ** The messages of different checks differ *)

Lemma str_rev_app s t : str_rev (s ++ t) = str_rev t ++ str_rev s.
Proof.
  induction s as [|c s IH]; simpl.
  - now rewrite append_nil_r.
  - now rewrite IH, append_assoc.
Qed.

Ltac differ_at_end :=
  let H := fresh in
  intros H; apply (f_equal str_rev) in H;
  unfold longNameMessage, shortNameMessage, upperCaseMessage in H;
  rewrite !str_rev_app in H; simpl in H; discriminate H.

Ltac differ_at_start :=
  let H := fresh in
  intros H;
  unfold longNameMessage, shortNameMessage, emptyArgumentNameMessage,
    upperCaseMessage, invalidCharacterMessage, alternativesMessage,
    defaultValueMessage in H;
  simpl in H; discriminate H.

Lemma longName_shortName_messages a b : longNameMessage a <> shortNameMessage b.
Proof. differ_at_end. Qed.

Lemma longName_upperCase_messages a b : longNameMessage a <> upperCaseMessage b.
Proof. differ_at_end. Qed.

Lemma shortName_upperCase_messages a b : shortNameMessage a <> upperCaseMessage b.
Proof. differ_at_end. Qed.

Lemma Error_inj a b : Error a = Error b -> a = b.
Proof. intros E. now injection E. Qed.

Lemma LaterError_not_longName e name :
  LaterError e -> e <> Error (longNameMessage name).
Proof.
  intros [] E; try discriminate E; apply Error_inj in E; symmetry in E;
    revert E; first [apply longName_upperCase_messages | differ_at_start].
Qed.

Lemma LaterError_not_shortName e name :
  LaterError e -> e <> Error (shortNameMessage name).
Proof.
  intros [] E; try discriminate E; apply Error_inj in E; symmetry in E;
    revert E; first [apply shortName_upperCase_messages | differ_at_start].
Qed.

(** ** What the constructors compute *)

Lemma base_constructor_eq def :
  CommandLineParameter_constructor def =
  if RegExp.test _longNameRegExp (D.parameterLongName def) then
    if truthy (D.parameterShortName def)
       && negb (RegExp.test _shortNameRegExp
                  (interpolate (D.parameterShortName def)))
    then Throw (Error (shortNameMessage (interpolate (D.parameterShortName def))))
    else Normal (baseInstance def)
  else Throw (Error (longNameMessage (D.parameterLongName def))).
Proof.
  unfold CommandLineParameter_constructor, throwIf, bind.
  destruct (RegExp.test _longNameRegExp _); simpl; [| reflexivity].
  destruct (truthy _); simpl; [| reflexivity].
  destruct (RegExp.test _shortNameRegExp _); reflexivity.
Qed.

Lemma withArgument_constructor_eq d super_ :
  CommandLineParameter_constructor (D.withArgument_base d) = Normal super_ ->
  CommandLineParameterWithArgument_constructor d =
  match D.argumentName d with
  | None => Throw TypeError
  | Some name =>
      if String.eqb name EmptyString then Throw (Error emptyArgumentNameMessage)
      else if units_eqb (toUpperCase name) (codeUnits name) then
        match RegExp.String_match name _invalidArgumentNameRegExp with
        | Some ch => Throw (Error (invalidCharacterMessage name ch))
        | None => Normal {| withArgument_super := super_;
                            argumentName := Some name |}
        end
      else Throw (Error (upperCaseMessage name))
  end.
Proof.
  intros B. unfold CommandLineParameterWithArgument_constructor.
  rewrite B. simpl. destruct (D.argumentName d) as [name |]; simpl.
  - destruct (String.eqb name EmptyString); simpl; [reflexivity |].
    destruct (units_eqb (toUpperCase name) (codeUnits name)); simpl; [| reflexivity].
    destruct (RegExp.String_match name _); reflexivity.
  - reflexivity.
Qed.

Lemma choice_constructor_eq d super_ :
  CommandLineParameter_constructor
    (D.withArgument_base (D.choice_base d)) = Normal super_ ->
  CommandLineChoiceParameter_constructor d =
  if (Z.of_nat (List.length (D.alternatives d)) <=? 1)%Z
  then Throw (Error alternativesMessage)
  else if truthy (D.defaultValue d)
          && (indexOf (D.alternatives d) (interpolate (D.defaultValue d)) =? -1)%Z
  then Throw (Error (defaultValueMessage (interpolate (D.defaultValue d))
                       (D.alternatives d)))
  else Normal {| choice_super := super_;
                 alternatives := D.alternatives d;
                 defaultValue := D.defaultValue d |}.
Proof.
  intros B. unfold CommandLineChoiceParameter_constructor.
  rewrite B. simpl.
  destruct (Z.of_nat _ <=? 1)%Z; simpl; [reflexivity |].
  destruct (truthy _ && _); reflexivity.
Qed.

Lemma construct_withArgument k d :
  construct (withArgument k d) =
  (p <- CommandLineParameterWithArgument_constructor d ;;
   Normal (wrapArgument k p)).
Proof. destruct k; reflexivity. Qed.

(** A failure of the base constructor is the failure of the whole
    construction. *)
Lemma construct_base_throw d e :
  CommandLineParameter_constructor (baseOf d) = Throw e ->
  construct d = Throw e.
Proof.
  destruct d; simpl; intros B;
    unfold CommandLineFlagParameter_constructor,
      CommandLineIntegerParameter_constructor,
      CommandLineStringParameter_constructor,
      CommandLineStringListParameter_constructor,
      CommandLineParameterWithArgument_constructor,
      CommandLineChoiceParameter_constructor;
    now rewrite B.
Qed.

(** The base constructor throws only its two messages. *)
Lemma base_throw_cases def e :
  CommandLineParameter_constructor def = Throw e ->
  (e = Error (longNameMessage (D.parameterLongName def))
   /\ RegExp.test _longNameRegExp (D.parameterLongName def) = false)
  \/ (e = Error (shortNameMessage (interpolate (D.parameterShortName def)))
      /\ truthy (D.parameterShortName def) = true
      /\ RegExp.test _shortNameRegExp
           (interpolate (D.parameterShortName def)) = false).
Proof.
  rewrite base_constructor_eq.
  destruct (RegExp.test _longNameRegExp _).
  - destruct (truthy _); simpl; [| discriminate].
    destruct (RegExp.test _shortNameRegExp _); simpl; [discriminate |].
    intros E. injection E as <-. auto.
  - intros E. injection E as <-. auto.
Qed.

(** Case analysis on the checks of [CommandLineParameterWithArgument]'s
    constructor, in a hypothesis about its result. *)
Ltac withArgument_cases H :=
  match type of H with
  | context [D.argumentName ?d] =>
      let name := fresh "name" in
      destruct (D.argumentName d) as [name |]; simpl in H;
      [ destruct (String.eqb name EmptyString); simpl in H;
        [ | destruct (units_eqb (toUpperCase name) (codeUnits name)); simpl in H;
            [ destruct (RegExp.String_match name _invalidArgumentNameRegExp);
              simpl in H | ] ] | ]
  end.

(** Any other exception comes from a statement after [super(definition)]. *)
Lemma construct_throw_cases d e :
  construct d = Throw e ->
  CommandLineParameter_constructor (baseOf d) = Throw e \/ LaterError e.
Proof.
  destruct (CommandLineParameter_constructor (baseOf d)) as [super_ | e0] eqn:B.
  - intros H. right. destruct d as [d | d | d | d | d]; simpl in B, H.
    + rewrite (choice_constructor_eq d super_ B) in H.
      destruct (Z.of_nat _ <=? 1)%Z; simpl in H.
      * injection H as <-. constructor.
      * destruct (truthy _ && _); simpl in H; [| discriminate].
        injection H as <-. constructor.
    + unfold CommandLineFlagParameter_constructor in H. rewrite B in H.
      discriminate.
    + unfold CommandLineIntegerParameter_constructor in H.
      rewrite (withArgument_constructor_eq d super_ B) in H.
      withArgument_cases H; first [discriminate H | injection H as <-; constructor].
    + unfold CommandLineStringParameter_constructor in H.
      rewrite (withArgument_constructor_eq d super_ B) in H.
      withArgument_cases H; first [discriminate H | injection H as <-; constructor].
    + unfold CommandLineStringListParameter_constructor in H.
      rewrite (withArgument_constructor_eq d super_ B) in H.
      withArgument_cases H; first [discriminate H | injection H as <-; constructor].
  - intros H. left. rewrite (construct_base_throw d e0 B) in H.
    now injection H as ->.
Qed.

(** A constructed instance carries the fields of the definition, an unset
    value, and the kind of its class. *)
Lemma construct_normal d p :
  construct d = Normal p ->
  CommandLineParameter_constructor (baseOf d) = Normal (super p)
  /\ kind p = kindOf d.
Proof.
  destruct (CommandLineParameter_constructor (baseOf d)) as [super_ | e0] eqn:B.
  - destruct d as [d | d | d | d | d]; simpl in B |- *.
    + rewrite (choice_constructor_eq d super_ B).
      destruct (Z.of_nat _ <=? 1)%Z; simpl; [discriminate |].
      destruct (truthy _ && _); simpl; [discriminate |].
      intros H. injection H as <-. auto.
    + unfold CommandLineFlagParameter_constructor. rewrite B. simpl.
      intros H. injection H as <-. auto.
    + unfold CommandLineIntegerParameter_constructor.
      rewrite (withArgument_constructor_eq d super_ B). intros H.
      withArgument_cases H; try discriminate H. injection H as <-. auto.
    + unfold CommandLineStringParameter_constructor.
      rewrite (withArgument_constructor_eq d super_ B). intros H.
      withArgument_cases H; try discriminate H. injection H as <-. auto.
    + unfold CommandLineStringListParameter_constructor.
      rewrite (withArgument_constructor_eq d super_ B). intros H.
      withArgument_cases H; try discriminate H. injection H as <-. auto.
  - rewrite (construct_base_throw d e0 B). discriminate.
Qed.

Lemma base_normal_instance def super_ :
  CommandLineParameter_constructor def = Normal super_ ->
  super_ = baseInstance def.
Proof.
  rewrite base_constructor_eq.
  destruct (RegExp.test _longNameRegExp _); [| discriminate].
  destruct (truthy _ && _); [discriminate |].
  intros H. now injection H.
Qed.

Lemma mentions_middle before x after : mentions (before ++ x ++ after) x.
Proof. now exists before, after. Qed.

Lemma longNameMessage_mentions name : mentions (longNameMessage name) name.
Proof.
  unfold longNameMessage. rewrite <- (append_assoc "Invalid name: " dq).
  apply mentions_middle.
Qed.

Lemma shortNameMessage_mentions name : mentions (shortNameMessage name) name.
Proof.
  unfold shortNameMessage. rewrite <- (append_assoc "Invalid name: " dq).
  apply mentions_middle.
Qed.

(* ================================================================= *)
(** * The claims *)

(** ** Names *)

Example longName_samples :
  RegExp.test _longNameRegExp "--do-a-thing" = true
  /\ RegExp.test _longNameRegExp "--max-count" = true
  /\ RegExp.test _longNameRegExp EmptyString = false
  /\ RegExp.test _longNameRegExp "--Do-a-thing" = false
  /\ RegExp.test _longNameRegExp "-a" = false
  /\ RegExp.test _longNameRegExp "--do a thing" = false
  /\ RegExp.test _longNameRegExp "--do--a" = false
  /\ RegExp.test _longNameRegExp "--do-" = false.
Proof. repeat split. Qed.

Example shortName_samples :
  RegExp.test _shortNameRegExp "-a" = true
  /\ RegExp.test _shortNameRegExp "-Z" = true
  /\ RegExp.test _shortNameRegExp "-7" = true
  /\ RegExp.test _shortNameRegExp "-ab" = false
  /\ RegExp.test _shortNameRegExp "-!" = false
  /\ RegExp.test _shortNameRegExp "a" = false
  /\ RegExp.test _shortNameRegExp "-" = false.
Proof. repeat split. Qed.

(** C4. Whatever the kind, construction fails with the long-name error,
    whose message quotes the offending string, exactly when
    [parameterLongName] is outside the grammar [-(-[a-z0-9]+)+]: inside the
    grammar the long-name error is never thrown (and with no short name to
    check the base constructor completes); outside it, it is the error
    thrown. *)
Theorem longName_check_exact (d : AnyDefinition) :
  (LongNameGrammar (D.parameterLongName (baseOf d)) ->
   construct d <> Throw (Error (longNameMessage (D.parameterLongName (baseOf d))))
   /\ (truthy (D.parameterShortName (baseOf d)) = false ->
       CommandLineParameter_constructor (baseOf d)
       = Normal (baseInstance (baseOf d))))
  /\ (~ LongNameGrammar (D.parameterLongName (baseOf d)) ->
      construct d = Throw (Error (longNameMessage (D.parameterLongName (baseOf d))))
      /\ mentions (longNameMessage (D.parameterLongName (baseOf d)))
           (D.parameterLongName (baseOf d))).
Proof.
  split.
  - intros G. apply test_longName in G. split.
    + intros H. apply construct_throw_cases in H as [H | H].
      * apply base_throw_cases in H as [[_ T] | [E _]]; [congruence |].
        apply Error_inj in E. now apply longName_shortName_messages in E.
      * eapply LaterError_not_longName; [exact H | reflexivity].
    + intros T. now rewrite base_constructor_eq, G, T.
  - intros G. apply test_longName_false in G. split.
    + apply construct_base_throw. now rewrite base_constructor_eq, G.
    + apply longNameMessage_mentions.
Qed.

(** C7, as the code has it. For a supplied short name other than the empty
    string: construction passes the short-name check (never throws the
    short-name error, and completes the base constructor when the long name
    is well formed) if the string is a dash followed by one letter or digit;
    otherwise construction fails, with the short-name error quoting the
    string once the long name has passed. *)
Theorem shortName_check_nonempty (d : AnyDefinition) (s : string) :
  D.parameterShortName (baseOf d) = Some s ->
  s <> EmptyString ->
  (ShortNameGrammar s ->
   (forall name, construct d <> Throw (Error (shortNameMessage name)))
   /\ (LongNameGrammar (D.parameterLongName (baseOf d)) ->
       CommandLineParameter_constructor (baseOf d)
       = Normal (baseInstance (baseOf d))))
  /\ (~ ShortNameGrammar s ->
      fails (construct d)
      /\ (LongNameGrammar (D.parameterLongName (baseOf d)) ->
          construct d = Throw (Error (shortNameMessage s)))
      /\ mentions (shortNameMessage s) s).
Proof.
  intros S N.
  assert (T : truthy (D.parameterShortName (baseOf d)) = true).
  { rewrite S. destruct s; [now elim N | reflexivity]. }
  split.
  - intros G. apply test_shortName in G. split.
    + intros name H. apply construct_throw_cases in H as [H | H].
      * apply base_throw_cases in H as [[E _] | (_ & _ & F)].
        -- apply Error_inj in E. symmetry in E.
           now apply longName_shortName_messages in E.
        -- rewrite S in F. simpl in F. congruence.
      * eapply LaterError_not_shortName; [exact H | reflexivity].
    + intros L. apply test_longName in L.
      rewrite base_constructor_eq, L, T, S. simpl. now rewrite G.
  - intros G. apply test_shortName_false in G.
    assert (B : fails (CommandLineParameter_constructor (baseOf d))
                /\ (LongNameGrammar (D.parameterLongName (baseOf d)) ->
                    CommandLineParameter_constructor (baseOf d)
                    = Throw (Error (shortNameMessage s)))).
    { rewrite base_constructor_eq, T, S. simpl. rewrite G. simpl. split.
      - destruct (RegExp.test _longNameRegExp _); eexists; reflexivity.
      - intros L. apply test_longName in L. now rewrite L. }
    destruct B as [[e B1] B2]. split; [| split].
    + exists e. now apply construct_base_throw.
    + intros L. apply construct_base_throw. auto.
    + apply shortNameMessage_mentions.
Qed.

Lemma shortName_check_nonempty_witness :
  D.parameterShortName (baseOf (FlagDefinition sampleShort)) = Some "-v"
  /\ "-v" <> EmptyString
  /\ CommandLineParameter_constructor sampleShort
     = Normal (baseInstance sampleShort)
  /\ fails (construct (FlagDefinition sampleTwoCharShort)).
Proof.
  split; [reflexivity | split; [discriminate | split]].
  - destruct (shortName_check_nonempty (FlagDefinition sampleShort) "-v"
                eq_refl ltac:(discriminate)) as [Accept _].
    apply Accept.
    + exists "v"%char. split; reflexivity.
    + apply test_longName. reflexivity.
  - destruct (shortName_check_nonempty (FlagDefinition sampleTwoCharShort) "-vv"
                eq_refl ltac:(discriminate)) as [_ Reject].
    apply Reject. apply test_shortName_false. reflexivity.
Defined.

(** C7, as stated, fails on the empty string: it is a supplied short name
    outside the grammar, and construction completes. *)
Lemma shortName_empty_not_rejected :
  D.parameterShortName (baseOf (FlagDefinition sampleEmptyShort))
  = Some EmptyString
  /\ ~ ShortNameGrammar EmptyString
  /\ construct (FlagDefinition sampleEmptyShort)
     = Normal (FlagParameter (baseInstance sampleEmptyShort)).
Proof.
  split; [reflexivity | split; [| reflexivity]].
  intros (c & _ & E). discriminate E.
Qed.

(** C10. With the empty string as [parameterShortName] the short-name check
    is skipped: no short-name error is thrown, whatever the rest of the
    definition; the base constructor completes as soon as the long name is
    well formed; and every instance constructed has the empty string as its
    [shortName]. *)
Theorem empty_shortName_accepted (d : AnyDefinition) :
  D.parameterShortName (baseOf d) = Some EmptyString ->
  (forall name, construct d <> Throw (Error (shortNameMessage name)))
  /\ (LongNameGrammar (D.parameterLongName (baseOf d)) ->
      CommandLineParameter_constructor (baseOf d)
      = Normal (baseInstance (baseOf d)))
  /\ (forall p, construct d = Normal p -> shortName (super p) = Some EmptyString).
Proof.
  intros S. split; [| split].
  - intros name H. apply construct_throw_cases in H as [H | H].
    + apply base_throw_cases in H as [[E _] | (_ & T & _)].
      * apply Error_inj in E. symmetry in E.
        now apply longName_shortName_messages in E.
      * rewrite S in T. discriminate T.
    + eapply LaterError_not_shortName; [exact H | reflexivity].
  - intros L. apply test_longName in L.
    now rewrite base_constructor_eq, L, S.
  - intros p H. apply construct_normal in H as [H _].
    apply base_normal_instance in H. rewrite H. exact S.
Qed.

Lemma empty_shortName_accepted_witness :
  D.parameterShortName (baseOf (FlagDefinition sampleEmptyShort))
  = Some EmptyString
  /\ CommandLineParameter_constructor sampleEmptyShort
     = Normal (baseInstance sampleEmptyShort)
  /\ shortName (baseInstance sampleEmptyShort) = Some EmptyString.
Proof.
  split; [reflexivity | split; [| reflexivity]].
  apply (empty_shortName_accepted (FlagDefinition sampleEmptyShort) eq_refl).
  apply test_longName. reflexivity.
Defined.

(** ** Argument names *)

Example argumentName_samples :
  construct (IntegerDefinition (sampleWithArgument (Some "NUMBER")))
  = Normal (IntegerParameter
              {| withArgument_super := baseInstance sampleBase;
                 argumentName := Some "NUMBER" |})
  /\ construct (IntegerDefinition (sampleWithArgument (Some "number")))
     = Throw (Error (upperCaseMessage "number"))
  /\ construct (StringDefinition (sampleWithArgument (Some EmptyString)))
     = Throw (Error emptyArgumentNameMessage)
  /\ construct (StringDefinition (sampleWithArgument (Some "Count")))
     = Throw (Error (upperCaseMessage "Count"))
  /\ construct (StringListDefinition (sampleWithArgument (Some "COUNT!")))
     = Throw (Error (invalidCharacterMessage "COUNT!" "!"))
  /\ construct (StringListDefinition (sampleWithArgument (Some "URL_2")))
     = Normal (StringListParameter
                 {| withArgument_super := baseInstance sampleBase;
                    argumentName := Some "URL_2" |}).
Proof. repeat split. Qed.

Lemma FirstDisallowed_nonempty s c : FirstDisallowed s c -> s <> EmptyString.
Proof.
  intros (before & after & -> & _) E.
  apply append_eq_nil in E as [_ E]. discriminate E.
Qed.

(** C5. Once the base constructor has completed, a supplied [argumentName]
    goes through three checks in order, and the first that fails decides the
    error: the empty string gives the empty-name error; a string that differs
    from its upper-cased form (any string with one of a-z in it, for one)
    gives the case error; a string that passes both and has a character
    outside [A-Z0-9_] gives the error that names the first such character.
    So every string with a character outside [A-Z0-9_] fails.  A non-empty
    string made of [A-Z0-9_] only is its own upper-cased form, passes all
    three, and is stored as [argumentName]. *)
Theorem argumentName_checks
    (k : ArgumentKind) (d : D.IBaseCommandLineDefinitionWithArgument)
    (super_ : CommandLineParameter) (name : string) :
  CommandLineParameter_constructor (D.withArgument_base d) = Normal super_ ->
  D.argumentName d = Some name ->
  (name = EmptyString ->
   construct (withArgument k d) = Throw (Error emptyArgumentNameMessage))
  /\ (toUpperCase name <> codeUnits name ->
      construct (withArgument k d) = Throw (Error (upperCaseMessage name)))
  /\ (forall before c after,
      name = before ++ String c after -> is_lower c = true ->
      construct (withArgument k d) = Throw (Error (upperCaseMessage name)))
  /\ (forall c, toUpperCase name = codeUnits name -> FirstDisallowed name c ->
      construct (withArgument k d)
      = Throw (Error (invalidCharacterMessage name (String c EmptyString))))
  /\ (~ ArgumentNameChars name -> fails (construct (withArgument k d)))
  /\ (name <> EmptyString -> ArgumentNameChars name ->
      toUpperCase name = codeUnits name
      /\ construct (withArgument k d)
         = Normal (wrapArgument k {| withArgument_super := super_;
                                     argumentName := Some name |})).
Proof.
  intros B A.
  rewrite construct_withArgument, (withArgument_constructor_eq d super_ B), A.
  assert (Case : toUpperCase name <> codeUnits name ->
                 (p <- (if String.eqb name EmptyString
                        then Throw (Error emptyArgumentNameMessage)
                        else if units_eqb (toUpperCase name) (codeUnits name)
                        then match RegExp.String_match name
                                     _invalidArgumentNameRegExp with
                             | Some ch =>
                                 Throw (Error (invalidCharacterMessage name ch))
                             | None =>
                                 Normal {| withArgument_super := super_;
                                           argumentName := Some name |}
                             end
                        else Throw (Error (upperCaseMessage name))) ;;
                  Normal (wrapArgument k p))
                 = Throw (Error (upperCaseMessage name))).
  { intros U. destruct (String.eqb_spec name EmptyString) as [-> | _].
    - now elim U.
    - destruct (units_eqb_spec (toUpperCase name) (codeUnits name));
        [now elim U | reflexivity]. }
  split; [| split; [| split; [| split; [| split]]]].
  - intros ->. reflexivity.
  - exact Case.
  - intros before c after -> L. apply Case. now apply toUpperCase_lower.
  - intros c U F.
    destruct (String.eqb_spec name EmptyString) as [E | _].
    + now apply FirstDisallowed_nonempty in F.
    + rewrite U, units_eqb_refl, (String_match_first name c F). reflexivity.
  - intros C. destruct (String.eqb name EmptyString); [eexists; reflexivity |].
    destruct (units_eqb (toUpperCase name) (codeUnits name));
      [| eexists; reflexivity].
    destruct (RegExp.String_match name _) eqn:M; [eexists; reflexivity |].
    now apply String_match_none in M.
  - intros N C. split; [now apply toUpperCase_ArgumentNameChars |].
    destruct (String.eqb_spec name EmptyString) as [E | _]; [now elim N |].
    rewrite (toUpperCase_ArgumentNameChars name C), units_eqb_refl.
    apply String_match_none in C. now rewrite C.
Qed.

(** The theorem at one name for each of its cases: an accepted name, the
    empty string, a name with lower-case letters, a name with the letter
    U+00E9 (whose upper-case form is U+00C9), and an upper-case name with an
    exclamation mark. *)
Lemma argumentName_checks_witness :
  CommandLineParameter_constructor sampleBase = Normal (baseInstance sampleBase)
  /\ construct (IntegerDefinition (sampleWithArgument (Some "NUMBER")))
     = Normal (IntegerParameter
                 {| withArgument_super := baseInstance sampleBase;
                    argumentName := Some "NUMBER" |})
  /\ construct (IntegerDefinition (sampleWithArgument (Some EmptyString)))
     = Throw (Error emptyArgumentNameMessage)
  /\ construct (StringDefinition (sampleWithArgument (Some "Count")))
     = Throw (Error (upperCaseMessage "Count"))
  /\ construct (StringDefinition
                  (sampleWithArgument (Some (String "233" EmptyString))))
     = Throw (Error (upperCaseMessage (String "233" EmptyString)))
  /\ construct (StringListDefinition (sampleWithArgument (Some "COUNT!")))
     = Throw (Error (invalidCharacterMessage "COUNT!" "!")).
Proof.
  split; [reflexivity |].
  split; [| split; [| split; [| split]]].
  - destruct (argumentName_checks ArgInteger
                (sampleWithArgument (Some "NUMBER"))
                (baseInstance sampleBase) "NUMBER" eq_refl eq_refl)
      as (_ & _ & _ & _ & _ & Accept).
    apply Accept; [discriminate | reflexivity].
  - destruct (argumentName_checks ArgInteger
                (sampleWithArgument (Some EmptyString))
                (baseInstance sampleBase) EmptyString eq_refl eq_refl)
      as (Empty & _).
    now apply Empty.
  - destruct (argumentName_checks ArgString
                (sampleWithArgument (Some "Count"))
                (baseInstance sampleBase) "Count" eq_refl eq_refl)
      as (_ & _ & Lower & _).
    apply (Lower "C" "o"%char "unt"); reflexivity.
  - destruct (argumentName_checks ArgString
                (sampleWithArgument (Some (String "233" EmptyString)))
                (baseInstance sampleBase) (String "233" EmptyString)
                eq_refl eq_refl)
      as (_ & Case & _).
    apply Case. discriminate.
  - destruct (argumentName_checks ArgStringList
                (sampleWithArgument (Some "COUNT!"))
                (baseInstance sampleBase) "COUNT!" eq_refl eq_refl)
      as (_ & _ & _ & Invalid & _).
    apply (Invalid "!"%char); [reflexivity |].
    exists "COUNT", EmptyString. repeat split.
Defined.

(** C2, on the code. With [argumentName] absent, and the base constructor
    completed, the constructor of each argument-bearing class calls
    [toUpperCase] on [undefined]: construction throws a [TypeError]. *)
Theorem absent_argumentName_throws
    (k : ArgumentKind) (d : D.IBaseCommandLineDefinitionWithArgument)
    (super_ : CommandLineParameter) :
  CommandLineParameter_constructor (D.withArgument_base d) = Normal super_ ->
  D.argumentName d = None ->
  construct (withArgument k d) = Throw TypeError.
Proof.
  intros B A.
  now rewrite construct_withArgument, (withArgument_constructor_eq d super_ B), A.
Qed.

Lemma absent_argumentName_throws_witness :
  CommandLineParameter_constructor
    (D.withArgument_base (sampleWithArgument None))
  = Normal (baseInstance sampleBase)
  /\ D.argumentName (sampleWithArgument None) = None
  /\ construct (IntegerDefinition (sampleWithArgument None)) = Throw TypeError
  /\ construct (StringDefinition (sampleWithArgument None)) = Throw TypeError
  /\ construct (StringListDefinition (sampleWithArgument None)) = Throw TypeError.
Proof.
  split; [reflexivity | split; [reflexivity |]].
  split; [| split].
  - exact (absent_argumentName_throws ArgInteger (sampleWithArgument None)
             (baseInstance sampleBase) eq_refl eq_refl).
  - exact (absent_argumentName_throws ArgString (sampleWithArgument None)
             (baseInstance sampleBase) eq_refl eq_refl).
  - exact (absent_argumentName_throws ArgStringList (sampleWithArgument None)
             (baseInstance sampleBase) eq_refl eq_refl).
Defined.

(** ** The Choice kind *)

(** C1, as stated, fails: on one and the same definition, whose
    [argumentName] breaks the argument-name grammar, the Integer class
    throws the case error, while the Choice class completes and its instance
    has no [argumentName]. *)
Lemma choice_not_argument_bearing :
  construct (IntegerDefinition
               (D.choice_base
                  (sampleChoice (Some "lower case!") None ["red"; "green"])))
  = Throw (Error (upperCaseMessage "lower case!"))
  /\ construct (ChoiceDefinition
                  (sampleChoice (Some "lower case!") None ["red"; "green"]))
     = Normal (ChoiceParameter
                 {| choice_super :=
                      baseInstance
                        (D.withArgument_base
                           (D.choice_base
                              (sampleChoice (Some "lower case!") None
                                 ["red"; "green"])));
                    alternatives := ["red"; "green"];
                    defaultValue := None |})
  /\ get_argumentName
       (ChoiceParameter
          {| choice_super :=
               baseInstance
                 (D.withArgument_base
                    (D.choice_base
                       (sampleChoice (Some "lower case!") None
                          ["red"; "green"])));
             alternatives := ["red"; "green"];
             defaultValue := None |})
     = None.
Proof. repeat split. Qed.

(** C1, as the code has it. [CommandLineChoiceParameter] extends
    [CommandLineParameter] directly: its constructor gives the same result
    whatever [argumentName] the definition carries, and its instances are of
    kind Choice and have no [argumentName].  The classes that do extend
    [CommandLineParameterWithArgument] are Integer, String and StringList:
    an instance of those has the definition's [argumentName], which is then
    a non-empty string of [A-Z0-9_]. *)
Theorem choice_extends_base_parameter
    (d : D.ICommandLineChoiceDefinition) (name : option string) :
  CommandLineChoiceParameter_constructor
    {| D.choice_base :=
         {| D.withArgument_base := D.withArgument_base (D.choice_base d);
            D.argumentName := name |};
       D.alternatives := D.alternatives d;
       D.defaultValue := D.defaultValue d |}
  = CommandLineChoiceParameter_constructor d
  /\ (forall p, construct (ChoiceDefinition d) = Normal p ->
      kind p = Choice /\ get_argumentName p = None)
  /\ (forall k a p, construct (withArgument k a) = Normal p ->
      get_argumentName p = Some (D.argumentName a)
      /\ exists n, D.argumentName a = Some n
                   /\ n <> EmptyString /\ ArgumentNameChars n).
Proof.
  split; [reflexivity | split].
  - intros p. simpl.
    destruct (CommandLineChoiceParameter_constructor d); simpl; [| discriminate].
    intros H. injection H as <-. auto.
  - intros k a p. rewrite construct_withArgument.
    destruct (CommandLineParameter_constructor (D.withArgument_base a))
      as [super_ | e] eqn:B.
    + rewrite (withArgument_constructor_eq a super_ B).
      destruct (D.argumentName a) as [n |]; simpl; [| discriminate].
      destruct (String.eqb_spec n EmptyString) as [| N]; simpl; [discriminate |].
      destruct (units_eqb (toUpperCase n) (codeUnits n)); simpl; [| discriminate].
      destruct (RegExp.String_match n _) eqn:M; simpl; [discriminate |].
      intros H. injection H as <-. apply String_match_none in M.
      split; [now destruct k | eauto].
    + unfold CommandLineParameterWithArgument_constructor. rewrite B.
      discriminate.
Qed.

Lemma defaultValueMessage_mentions v alts :
  mentions (defaultValueMessage v alts) v
  /\ mentions (defaultValueMessage v alts) (Array_toString alts).
Proof.
  unfold defaultValueMessage. split.
  - rewrite <- (append_assoc "The specified default value " dq).
    apply mentions_middle.
  - exists ("The specified default value " ++ dq ++ v ++ dq
            ++ " is not one of the available options: "), EmptyString.
    now rewrite append_nil_r, !append_assoc.
Qed.

Lemma alternatives_leb (alts : list string) :
  (Z.of_nat (List.length alts) <=? 1)%Z = true <-> (List.length alts < 2)%nat.
Proof. rewrite Z.leb_le. lia. Qed.

(** C3, as stated, fails on the empty string: it is a supplied default that
    is not among the alternatives, and construction completes and stores
    it. *)
Lemma empty_defaultValue_not_rejected :
  ~ In EmptyString ["red"; "green"]
  /\ construct (ChoiceDefinition
                  (sampleChoice None (Some EmptyString) ["red"; "green"]))
     = Normal (ChoiceParameter
                 {| choice_super :=
                      baseInstance
                        (D.withArgument_base
                           (D.choice_base
                              (sampleChoice None (Some EmptyString)
                                 ["red"; "green"])));
                    alternatives := ["red"; "green"];
                    defaultValue := Some EmptyString |}).
Proof.
  split; [| reflexivity].
  intros [E | [E | []]]; discriminate E.
Qed.

(** C3, as the code has it. For a Choice definition whose names pass the base
    constructor and which has at least two alternatives: a supplied default
    other than the empty string that is not among the alternatives makes
    construction fail with the error whose message quotes the default and
    lists the alternatives; a supplied default that is among the alternatives
    lets construction complete, and is stored as [defaultValue]. *)
Theorem defaultValue_membership
    (d : D.ICommandLineChoiceDefinition) (super_ : CommandLineParameter)
    (v : string) :
  CommandLineParameter_constructor (D.withArgument_base (D.choice_base d))
  = Normal super_ ->
  (2 <= List.length (D.alternatives d))%nat ->
  D.defaultValue d = Some v ->
  (v <> EmptyString -> ~ In v (D.alternatives d) ->
   CommandLineChoiceParameter_constructor d
   = Throw (Error (defaultValueMessage v (D.alternatives d)))
   /\ mentions (defaultValueMessage v (D.alternatives d)) v
   /\ mentions (defaultValueMessage v (D.alternatives d))
        (Array_toString (D.alternatives d)))
  /\ (In v (D.alternatives d) ->
      CommandLineChoiceParameter_constructor d
      = Normal {| choice_super := super_;
                  alternatives := D.alternatives d;
                  defaultValue := Some v |}).
Proof.
  intros B L V. rewrite (choice_constructor_eq d super_ B), V. simpl.
  destruct (Z.of_nat (List.length (D.alternatives d)) <=? 1)%Z eqn:A.
  { apply alternatives_leb in A. lia. }
  split.
  - intros N I. split; [| apply defaultValueMessage_mentions].
    apply indexOf_minus_one in I. rewrite I.
    destruct v; [now elim N | reflexivity].
  - intros I.
    destruct (indexOf (D.alternatives d) v =? -1)%Z eqn:X.
    + apply Z.eqb_eq, indexOf_minus_one in X. now elim X.
    + now rewrite andb_false_r.
Qed.

Lemma defaultValue_membership_witness :
  CommandLineParameter_constructor
    (D.withArgument_base
       (D.choice_base (sampleChoice None (Some "red") ["red"; "green"])))
  = Normal (baseInstance
              (D.withArgument_base
                 (D.choice_base (sampleChoice None None ["red"; "green"]))))
  /\ (2 <= List.length ["red"; "green"])%nat
  /\ CommandLineChoiceParameter_constructor
       (sampleChoice None (Some "red") ["red"; "green"])
     = Normal {| choice_super :=
                   baseInstance
                     (D.withArgument_base
                        (D.choice_base
                           (sampleChoice None None ["red"; "green"])));
                 alternatives := ["red"; "green"];
                 defaultValue := Some "red" |}
  /\ CommandLineChoiceParameter_constructor
       (sampleChoice None (Some "blue") ["red"; "green"])
     = Throw (Error (defaultValueMessage "blue" ["red"; "green"])).
Proof.
  split; [reflexivity | split; [simpl; lia | split]].
  - apply (defaultValue_membership
             (sampleChoice None (Some "red") ["red"; "green"]) _ "red"
             eq_refl ltac:(simpl; lia) eq_refl).
    simpl. auto.
  - apply (defaultValue_membership
             (sampleChoice None (Some "blue") ["red"; "green"])
             (baseInstance
                (D.withArgument_base
                   (D.choice_base (sampleChoice None None ["red"; "green"]))))
             "blue" eq_refl ltac:(simpl; lia) eq_refl).
    + discriminate.
    + intros [E | [E | []]]; discriminate E.
Defined.

Example choice_samples :
  completes (construct (ChoiceDefinition (sampleChoice None None ["a"; "b"])))
  /\ construct (ChoiceDefinition (sampleChoice None None ["a"]))
     = Throw (Error alternativesMessage)
  /\ construct (ChoiceDefinition (sampleChoice None None []))
     = Throw (Error alternativesMessage)
  /\ construct (ChoiceDefinition (sampleChoice None (Some "c") ["a"; "b"]))
     = Throw (Error (defaultValueMessage "c" ["a"; "b"]))
  /\ completes
       (construct (ChoiceDefinition (sampleChoice None (Some "a") ["a"; "b"]))).
Proof. repeat split; eexists; reflexivity. Qed.

(** C6. Construction of a Choice parameter fails whenever the alternatives
    list has fewer than two members (with the alternatives error, once the
    base constructor has completed), and with two or more members the
    alternatives error is never thrown. *)
Theorem alternatives_at_least_two (d : D.ICommandLineChoiceDefinition) :
  ((List.length (D.alternatives d) < 2)%nat ->
   fails (CommandLineChoiceParameter_constructor d)
   /\ (forall super_,
       CommandLineParameter_constructor (D.withArgument_base (D.choice_base d))
       = Normal super_ ->
       CommandLineChoiceParameter_constructor d
       = Throw (Error alternativesMessage)))
  /\ ((2 <= List.length (D.alternatives d))%nat ->
      CommandLineChoiceParameter_constructor d
      <> Throw (Error alternativesMessage)).
Proof.
  destruct (CommandLineParameter_constructor
              (D.withArgument_base (D.choice_base d))) as [super_ | e] eqn:B.
  - rewrite (choice_constructor_eq d super_ B).
    destruct (Z.of_nat (List.length (D.alternatives d)) <=? 1)%Z eqn:A.
    + apply alternatives_leb in A. split; [| lia].
      intros _. split; [eexists |]; reflexivity.
    + split.
      * intros L. apply alternatives_leb in L. congruence.
      * intros _. destruct (truthy _ && _); [| discriminate].
        intros E. injection E as E. revert E. differ_at_start.
  - assert (E : CommandLineChoiceParameter_constructor d = Throw e).
    { unfold CommandLineChoiceParameter_constructor. now rewrite B. }
    rewrite E. split.
    + intros _. split; [eexists; reflexivity | discriminate].
    + intros _ X. injection X as ->.
      apply base_throw_cases in B as [[X _] | [X _]];
        apply Error_inj in X; revert X; differ_at_start.
Qed.

(** ** The value slot *)

(** C8. After [_setValue] with a payload, [value] is that payload, whatever
    the instance and whatever the payload; so a StringList parameter given
    the array of "x" and "y" reads back that array, in that order. *)
Theorem value_after_setValue (p : AnyParameter) (data : JSValue) :
  value (_setValue p data) = data
  /\ forall q : CommandLineStringListParameter,
      value (_setValue (StringListParameter q)
               (JSArray [JSString "x"; JSString "y"]))
      = JSArray [JSString "x"; JSString "y"].
Proof. split; [now destruct p | reflexivity]. Qed.

(** An instance just constructed has no value yet. *)
Lemma value_before_setValue d p :
  construct d = Normal p -> value p = JSUndefined.
Proof.
  intros H. apply construct_normal in H as [H _].
  apply base_normal_instance in H. unfold value. now rewrite H.
Qed.

(** C9. [_setValue] changes the value slot only: the long name, the short
    name, the description, the parser key, the kind, and the [argumentName],
    [alternatives] and [defaultValue] of the classes that have them are what
    they were. *)
Theorem setValue_frame (p : AnyParameter) (data : JSValue) :
  longName (super (_setValue p data)) = longName (super p)
  /\ shortName (super (_setValue p data)) = shortName (super p)
  /\ description (super (_setValue p data)) = description (super p)
  /\ _parserKey (super (_setValue p data)) = _parserKey (super p)
  /\ kind (_setValue p data) = kind p
  /\ get_argumentName (_setValue p data) = get_argumentName p
  /\ get_alternatives (_setValue p data) = get_alternatives p
  /\ get_defaultValue (_setValue p data) = get_defaultValue p.
Proof. destruct p; repeat split. Qed.

(* ================================================================= *)
(** * Further properties of the constructors and the value slot *)

Lemma not_completes_Throw {A : Type} (e : Exception) :
  ~ completes (@Throw A e).
Proof. intros [a H]. discriminate H. Qed.

Lemma completes_Normal {A : Type} (a : A) : completes (Normal a).
Proof. now exists a. Qed.

Lemma completes_bind_Normal {A B : Type} (m : Completion A) (f : A -> B) :
  completes (x <- m ;; Normal (f x)) <-> completes m.
Proof.
  destruct m as [a | e]; simpl; split; intros H;
    try apply completes_Normal; now apply not_completes_Throw in H.
Qed.

Lemma ShortNameAccepted_test v :
  ShortNameAccepted v <->
  truthy v && negb (RegExp.test _shortNameRegExp (interpolate v)) = false.
Proof.
  unfold ShortNameAccepted.
  destruct v as [[| c s] |]; cbn [truthy interpolate andb].
  - split; auto.
  - rewrite negb_false_iff, test_shortName. split.
    + intros [H | [H | (x & H & G)]]; try discriminate H.
      now injection H as ->.
    + intros G. right. right. eauto.
  - split; auto.
Qed.

(** The base constructor completes exactly on the definitions whose names
    are accepted. *)
Lemma base_completes_iff def :
  completes (CommandLineParameter_constructor def) <-> NamesAccepted def.
Proof.
  unfold NamesAccepted. rewrite base_constructor_eq, ShortNameAccepted_test.
  destruct (RegExp.test _longNameRegExp _) eqn:L.
  - apply test_longName in L.
    destruct (truthy _ && _); split; intros H.
    + now apply not_completes_Throw in H.
    + destruct H as [_ H]. discriminate H.
    + auto.
    + apply completes_Normal.
  - apply test_longName_false in L. split; intros H.
    + now apply not_completes_Throw in H.
    + now destruct H.
Qed.

(** X1. A Flag parameter is constructed exactly when the long name is in the
    long-name grammar and the short name is absent, empty, or a dash
    followed by one letter or digit; nothing else in the definition is
    looked at. *)
Theorem flag_constructed_iff (def : D.ICommandLineFlagDefinition) :
  completes (construct (FlagDefinition def)) <-> NamesAccepted def.
Proof.
  simpl. unfold CommandLineFlagParameter_constructor.
  now rewrite completes_bind_Normal, base_completes_iff.
Qed.

Lemma withArgument_completes_iff
    (d : D.IBaseCommandLineDefinitionWithArgument) :
  completes (CommandLineParameterWithArgument_constructor d) <->
  NamesAccepted (D.withArgument_base d)
  /\ ArgumentNameAccepted (D.argumentName d).
Proof.
  rewrite <- base_completes_iff.
  unfold ArgumentNameAccepted.
  destruct (CommandLineParameter_constructor (D.withArgument_base d))
    as [super_ | e] eqn:B.
  - rewrite (withArgument_constructor_eq d super_ B).
    destruct (D.argumentName d) as [n |].
    + destruct (String.eqb_spec n EmptyString) as [-> | N].
      { split; intros H; [now apply not_completes_Throw in H |].
        destruct H as (_ & x & E & X & _). injection E as <-. now elim X. }
      destruct (units_eqb_spec (toUpperCase n) (codeUnits n)) as [U | U].
      * destruct (RegExp.String_match n _) eqn:M; split; intros H.
        -- now apply not_completes_Throw in H.
        -- destruct H as (_ & x & E & _ & C). injection E as <-.
           apply String_match_none in C. congruence.
        -- apply String_match_none in M.
           split; [apply completes_Normal | eauto].
        -- apply completes_Normal.
      * split; intros H; [now apply not_completes_Throw in H |].
        destruct H as (_ & x & E & _ & C). injection E as <-.
        now apply toUpperCase_ArgumentNameChars in C.
    + split; intros H; [now apply not_completes_Throw in H |].
      destruct H as (_ & x & E & _). discriminate E.
  - unfold CommandLineParameterWithArgument_constructor. rewrite B. simpl.
    split; intros H; [now apply not_completes_Throw in H |].
    destruct H as [H _]. now apply not_completes_Throw in H.
Qed.

Lemma ChoiceAccepted_test alts v :
  ChoiceAccepted alts v <->
  (Z.of_nat (List.length alts) <=? 1)%Z = false
  /\ truthy v && (indexOf alts (interpolate v) =? -1)%Z = false.
Proof.
  unfold ChoiceAccepted. rewrite Z.leb_gt.
  assert (L : (2 <= List.length alts)%nat <-> (1 < Z.of_nat (List.length alts))%Z)
    by lia.
  rewrite L. apply and_iff_compat_l.
  destruct v as [[| c x] |]; cbn [truthy interpolate andb].
  - split; auto.
  - rewrite Z.eqb_neq, indexOf_minus_one. split.
    + intros [H | [H | (y & H & I)]]; try discriminate H.
      injection H as <-. auto.
    + intros H. right. right. exists (String c x). split; [reflexivity |].
      destruct (in_dec String.string_dec (String c x) alts); [assumption |].
      now elim H.
  - split; auto.
Qed.

Lemma choice_completes_iff (d : D.ICommandLineChoiceDefinition) :
  completes (CommandLineChoiceParameter_constructor d) <->
  NamesAccepted (D.withArgument_base (D.choice_base d))
  /\ ChoiceAccepted (D.alternatives d) (D.defaultValue d).
Proof.
  rewrite <- base_completes_iff, ChoiceAccepted_test.
  destruct (CommandLineParameter_constructor
              (D.withArgument_base (D.choice_base d))) as [super_ | e] eqn:B.
  - rewrite (choice_constructor_eq d super_ B).
    destruct (Z.of_nat _ <=? 1)%Z.
    + split; intros H; [now apply not_completes_Throw in H |].
      destruct H as (_ & H & _). discriminate H.
    + destruct (truthy _ && _); split; intros H.
      * now apply not_completes_Throw in H.
      * destruct H as (_ & _ & H). discriminate H.
      * split; [apply completes_Normal | auto].
      * apply completes_Normal.
  - unfold CommandLineChoiceParameter_constructor. rewrite B. simpl.
    split; intros H; [now apply not_completes_Throw in H |].
    destruct H as [H _]. now apply not_completes_Throw in H.
Qed.

(** Construction completes exactly on the accepted definitions, and then
    returns the instance with the definition's fields. *)
Lemma construct_completes_iff d : completes (construct d) <-> Accepted d.
Proof.
  unfold Accepted. destruct d as [c | b | a | a | a]; simpl;
    rewrite completes_bind_Normal.
  - apply choice_completes_iff.
  - unfold CommandLineFlagParameter_constructor.
    rewrite base_completes_iff. tauto.
  - apply withArgument_completes_iff.
  - apply withArgument_completes_iff.
  - apply withArgument_completes_iff.
Qed.

Lemma construct_Normal_instance d p :
  construct d = Normal p -> p = instanceOf d.
Proof.
  intros H. destruct (construct_normal d p H) as [B _].
  apply base_normal_instance in B.
  destruct d as [c | b | a | a | a]; simpl in H, B |- *.
  - destruct (CommandLineChoiceParameter_constructor c) as [q | e] eqn:Q;
      simpl in H; [| discriminate H].
    injection H as <-. simpl in B.
    destruct (CommandLineParameter_constructor
                (D.withArgument_base (D.choice_base c))) as [super_ | e] eqn:S.
    + rewrite (choice_constructor_eq c super_ S) in Q.
      destruct (Z.of_nat _ <=? 1)%Z; [discriminate Q |].
      destruct (truthy _ && _); [discriminate Q |].
      injection Q as <-. simpl in B. now rewrite B.
    + unfold CommandLineChoiceParameter_constructor in Q. rewrite S in Q.
      discriminate Q.
  - unfold CommandLineFlagParameter_constructor in H.
    destruct (CommandLineParameter_constructor b); simpl in H;
      [| discriminate H].
    injection H as <-. simpl in B. now rewrite B.
  - unfold CommandLineIntegerParameter_constructor in H.
    destruct (CommandLineParameter_constructor (D.withArgument_base a))
      as [super_ | e] eqn:S.
    + rewrite (withArgument_constructor_eq a super_ S) in H.
      unfold withArgumentInstance.
      withArgument_cases H; try discriminate H.
      injection H as <-. simpl in B. now rewrite B.
    + unfold CommandLineParameterWithArgument_constructor in H.
      rewrite S in H. discriminate H.
  - unfold CommandLineStringParameter_constructor in H.
    destruct (CommandLineParameter_constructor (D.withArgument_base a))
      as [super_ | e] eqn:S.
    + rewrite (withArgument_constructor_eq a super_ S) in H.
      unfold withArgumentInstance.
      withArgument_cases H; try discriminate H.
      injection H as <-. simpl in B. now rewrite B.
    + unfold CommandLineParameterWithArgument_constructor in H.
      rewrite S in H. discriminate H.
  - unfold CommandLineStringListParameter_constructor in H.
    destruct (CommandLineParameter_constructor (D.withArgument_base a))
      as [super_ | e] eqn:S.
    + rewrite (withArgument_constructor_eq a super_ S) in H.
      unfold withArgumentInstance.
      withArgument_cases H; try discriminate H.
      injection H as <-. simpl in B. now rewrite B.
    + unfold CommandLineParameterWithArgument_constructor in H.
      rewrite S in H. discriminate H.
Qed.

(** X2. An Integer, String or StringList parameter is constructed exactly
    when its names are accepted and [argumentName] is a non-empty string of
    A-Z, 0-9 and underscores; an absent [argumentName] is not accepted. *)
Theorem withArgument_constructed_iff
    (k : ArgumentKind) (d : D.IBaseCommandLineDefinitionWithArgument) :
  completes (construct (withArgument k d)) <->
  NamesAccepted (D.withArgument_base d)
  /\ ArgumentNameAccepted (D.argumentName d).
Proof.
  rewrite construct_withArgument, completes_bind_Normal.
  apply withArgument_completes_iff.
Qed.

(** X3. A Choice parameter is constructed exactly when its names are
    accepted, there are two alternatives or more, and the default is absent,
    empty, or one of the alternatives.  The alternatives need not differ
    from one another, and [argumentName] plays no part. *)
Theorem choice_constructed_iff (d : D.ICommandLineChoiceDefinition) :
  completes (construct (ChoiceDefinition d)) <->
  NamesAccepted (D.withArgument_base (D.choice_base d))
  /\ ChoiceAccepted (D.alternatives d) (D.defaultValue d).
Proof.
  simpl. rewrite completes_bind_Normal. apply choice_completes_iff.
Qed.

(** X4. A constructed instance holds the definition's long name, short name
    and description exactly as given, has no parser key and no value yet, is
    of the kind of its class, and has the definition's [argumentName],
    [alternatives] and [defaultValue] where its class stores them. *)
Theorem constructed_fields (d : AnyDefinition) (p : AnyParameter) :
  construct d = Normal p ->
  longName (super p) = D.parameterLongName (baseOf d)
  /\ shortName (super p) = D.parameterShortName (baseOf d)
  /\ description (super p) = D.description (baseOf d)
  /\ _parserKey (super p) = None
  /\ value p = JSUndefined
  /\ kind p = kindOf d
  /\ get_argumentName p = definition_argumentName d
  /\ get_alternatives p = definition_alternatives d
  /\ get_defaultValue p = definition_defaultValue d.
Proof.
  intros H. apply construct_Normal_instance in H. subst p.
  destruct d; repeat split.
Qed.

Lemma constructed_fields_witness :
  construct (StringDefinition (sampleWithArgument (Some "URL_2")))
  = Normal (StringParameter (withArgumentInstance (sampleWithArgument (Some "URL_2"))))
  /\ longName (baseInstance sampleBase) = "--max-count"
  /\ get_argumentName
       (StringParameter (withArgumentInstance (sampleWithArgument (Some "URL_2"))))
     = Some (Some "URL_2").
Proof.
  split; [reflexivity |].
  destruct (constructed_fields
              (StringDefinition (sampleWithArgument (Some "URL_2")))
              (StringParameter
                 (withArgumentInstance (sampleWithArgument (Some "URL_2"))))
              eq_refl) as (L & _ & _ & _ & _ & _ & A & _).
  split; [exact L | exact A].
Defined.

(** ** The state of an instance over its life *)

Lemma WellFormed_instanceOf d : Accepted d -> WellFormed (instanceOf d).
Proof.
  unfold Accepted, NamesAccepted, WellFormed.
  destruct d; simpl; tauto.
Qed.

Lemma WellFormed_setValue p data : WellFormed p -> WellFormed (_setValue p data).
Proof. unfold WellFormed. destruct p; simpl; tauto. Qed.

Lemma kind_setValue p data : kind (_setValue p data) = kind p.
Proof. now destruct p. Qed.

Lemma value_setValue p data : value (_setValue p data) = data.
Proof. now destruct p. Qed.

Lemma value_setValues payloads :
  forall p, value (setValues p payloads) = last payloads (value p).
Proof.
  unfold setValues. induction payloads as [| a l IH]; intros p; simpl.
  - reflexivity.
  - rewrite IH, value_setValue. destruct l as [| b l]; [reflexivity |].
    clear IH. revert b. induction l as [| c l IHl]; intros b; [reflexivity |].
    simpl in *. apply IHl.
Qed.

(** X5. Whatever payloads are injected after construction, and however many
    times, the instance stays as its constructor left it (long name in the
    long-name grammar, short name absent, empty or in the short-name
    grammar, the argument name or the alternatives and default as accepted),
    keeps its kind, and [value] reads the payload injected last (or
    [undefined] when none was). *)
Theorem setValues_invariant
    (d : AnyDefinition) (p : AnyParameter) (payloads : list JSValue) :
  construct d = Normal p ->
  WellFormed (setValues p payloads)
  /\ kind (setValues p payloads) = kindOf d
  /\ value (setValues p payloads) = last payloads JSUndefined.
Proof.
  intros H.
  assert (A : Accepted d).
  { apply construct_completes_iff. now exists p. }
  apply construct_Normal_instance in H. subst p.
  split; [| split].
  - apply WellFormed_instanceOf in A. revert A. generalize (instanceOf d).
    unfold setValues. induction payloads as [| a l IH]; intros q W; simpl.
    + exact W.
    + apply IH. now apply WellFormed_setValue.
  - assert (K : kind (instanceOf d) = kindOf d) by now destruct d.
    rewrite <- K. generalize (instanceOf d).
    unfold setValues. induction payloads as [| a l IH]; intros q; simpl.
    + reflexivity.
    + now rewrite IH, kind_setValue.
  - rewrite value_setValues. now destruct d.
Qed.

Lemma setValues_invariant_witness :
  construct (FlagDefinition sampleShort)
  = Normal (FlagParameter (baseInstance sampleShort))
  /\ value (setValues (FlagParameter (baseInstance sampleShort))
              [JSBoolean false; JSString "x"; JSBoolean true])
     = JSBoolean true
  /\ WellFormed (setValues (FlagParameter (baseInstance sampleShort))
                   [JSBoolean false; JSString "x"; JSBoolean true]).
Proof.
  split; [reflexivity |].
  destruct (setValues_invariant (FlagDefinition sampleShort)
              (FlagParameter (baseInstance sampleShort))
              [JSBoolean false; JSString "x"; JSBoolean true] eq_refl)
    as (W & _ & V).
  split; [exact V | exact W].
Defined.

(** ** Exceptions *)

(** X6. Construction throws a [TypeError] in one situation only: the class
    is Integer, String or StringList, the names are accepted, and
    [argumentName] is absent.  Flag and Choice construction never throw
    one. *)
Theorem TypeError_iff (d : AnyDefinition) :
  construct d = Throw TypeError <->
  exists k a,
    d = withArgument k a
    /\ D.argumentName a = None
    /\ NamesAccepted (D.withArgument_base a).
Proof.
  split.
  - intros H.
    destruct (CommandLineParameter_constructor (baseOf d)) as [super_ | e] eqn:B.
    + assert (N : NamesAccepted (baseOf d)).
      { apply base_completes_iff. rewrite B. apply completes_Normal. }
      destruct d as [c | b | a | a | a]; simpl in B, N, H.
      * rewrite (choice_constructor_eq c super_ B) in H.
        destruct (Z.of_nat _ <=? 1)%Z; [discriminate H |].
        destruct (truthy _ && _); discriminate H.
      * unfold CommandLineFlagParameter_constructor in H. rewrite B in H.
        discriminate H.
      * unfold CommandLineIntegerParameter_constructor in H.
        rewrite (withArgument_constructor_eq a super_ B) in H.
        destruct (D.argumentName a) as [n |] eqn:A;
          [| now exists ArgInteger, a].
        simpl in H. destruct (String.eqb n EmptyString); [discriminate H |].
        destruct (units_eqb (toUpperCase n) (codeUnits n)); [| discriminate H].
        destruct (RegExp.String_match n _); discriminate H.
      * unfold CommandLineStringParameter_constructor in H.
        rewrite (withArgument_constructor_eq a super_ B) in H.
        destruct (D.argumentName a) as [n |] eqn:A;
          [| now exists ArgString, a].
        simpl in H. destruct (String.eqb n EmptyString); [discriminate H |].
        destruct (units_eqb (toUpperCase n) (codeUnits n)); [| discriminate H].
        destruct (RegExp.String_match n _); discriminate H.
      * unfold CommandLineStringListParameter_constructor in H.
        rewrite (withArgument_constructor_eq a super_ B) in H.
        destruct (D.argumentName a) as [n |] eqn:A;
          [| now exists ArgStringList, a].
        simpl in H. destruct (String.eqb n EmptyString); [discriminate H |].
        destruct (units_eqb (toUpperCase n) (codeUnits n)); [| discriminate H].
        destruct (RegExp.String_match n _); discriminate H.
    + rewrite (construct_base_throw d e B) in H. injection H as ->.
      apply base_throw_cases in B as [[E _] | [E _]]; discriminate E.
  - intros (k & a & -> & A & N).
    apply base_completes_iff in N as [super_ B].
    now rewrite construct_withArgument,
      (withArgument_constructor_eq a super_ B), A.
Qed.

(** X7. The messages of two different checks never coincide, whatever names
    and values they quote: the message alone tells which check failed. *)
Theorem message_tells_check (c1 c2 : Check) (m : string) :
  MessageOf c1 m -> MessageOf c2 m -> c1 = c2.
Proof.
  intros H1 H2. destruct H1 as [a | a | | a | a b | | a b];
    match goal with
    | H : MessageOf _ ?x |- _ => remember x as m' eqn:E
    end;
    destruct H2; try reflexivity; exfalso; revert E;
    first [differ_at_start | differ_at_end].
Qed.

Lemma message_tells_check_witness :
  MessageOf UpperCaseCheck (upperCaseMessage "Count")
  /\ UpperCaseCheck = UpperCaseCheck.
Proof.
  split; [constructor |].
  apply (message_tells_check UpperCaseCheck UpperCaseCheck
           (upperCaseMessage "Count")); constructor.
Defined.

(** ** More on names *)

Lemma not_ArgumentNameChars_FirstDisallowed n :
  ~ ArgumentNameChars n -> exists c, FirstDisallowed n c.
Proof.
  intros N.
  destruct (RegExp.String_match n _invalidArgumentNameRegExp) as [m |] eqn:M.
  - apply String_match_some in M as (c & _ & F). eauto.
  - apply String_match_none in M. now elim N.
Qed.

(** X8. The case check rejects nothing the character check would let
    through: a name that differs from its upper-cased form has a character
    outside A-Z, 0-9 and underscore.  The case check only decides which of
    the two messages such a name gets. *)
Theorem case_check_subsumed (n : string) :
  toUpperCase n <> codeUnits n -> exists c, FirstDisallowed n c.
Proof.
  intros U. apply not_ArgumentNameChars_FirstDisallowed.
  intros C. now apply toUpperCase_ArgumentNameChars in C.
Qed.

Lemma case_check_subsumed_witness :
  toUpperCase "Count" <> codeUnits "Count"
  /\ exists c, FirstDisallowed "Count" c.
Proof.
  assert (U : toUpperCase "Count" <> codeUnits "Count") by discriminate.
  split; [exact U | exact (case_check_subsumed "Count" U)].
Defined.

(** X9. When a supplied argument name equals its upper-cased form (so it
    has none of a-z, nor any other character that upper-casing changes) but
    is not made of A-Z, 0-9 and underscores only, it has a first character
    outside that set, and construction throws the error naming exactly that
    character. *)
Theorem invalid_character_reported
    (k : ArgumentKind) (d : D.IBaseCommandLineDefinitionWithArgument)
    (super_ : CommandLineParameter) (n : string) :
  CommandLineParameter_constructor (D.withArgument_base d) = Normal super_ ->
  D.argumentName d = Some n ->
  toUpperCase n = codeUnits n ->
  ~ ArgumentNameChars n ->
  exists c,
    FirstDisallowed n c
    /\ construct (withArgument k d)
       = Throw (Error (invalidCharacterMessage n (String c EmptyString))).
Proof.
  intros B A U N.
  destruct (not_ArgumentNameChars_FirstDisallowed n N) as [c F].
  exists c. split; [exact F |].
  rewrite construct_withArgument, (withArgument_constructor_eq d super_ B), A.
  destruct (String.eqb_spec n EmptyString) as [-> | _].
  - now elim N.
  - now rewrite U, units_eqb_refl, (String_match_first n c F).
Qed.

Lemma invalid_character_reported_witness :
  CommandLineParameter_constructor
    (D.withArgument_base (sampleWithArgument (Some "MAX-COUNT!")))
  = Normal (baseInstance sampleBase)
  /\ toUpperCase "MAX-COUNT!" = codeUnits "MAX-COUNT!"
  /\ ~ ArgumentNameChars "MAX-COUNT!"
  /\ exists c,
       FirstDisallowed "MAX-COUNT!" c
       /\ construct (withArgument ArgString
                       (sampleWithArgument (Some "MAX-COUNT!")))
          = Throw (Error (invalidCharacterMessage "MAX-COUNT!"
                            (String c EmptyString))).
Proof.
  assert (N : ~ ArgumentNameChars "MAX-COUNT!") by discriminate.
  split; [reflexivity | split; [reflexivity | split; [exact N |]]].
  exact (invalid_character_reported ArgString
           (sampleWithArgument (Some "MAX-COUNT!"))
           (baseInstance sampleBase) "MAX-COUNT!" eq_refl eq_refl eq_refl N).
Defined.

Lemma string_forallb_impl (p q : ascii -> bool) s :
  (forall c, p c = true -> q c = true) ->
  string_forallb p s = true -> string_forallb q s = true.
Proof.
  intros I. induction s as [| c s IH]; simpl; [reflexivity |].
  rewrite !andb_true_iff. intros [P F]. auto.
Qed.

Lemma Segment_last g :
  Segment g ->
  exists init c, g = init ++ String c EmptyString /\ is_lower_alnum c = true.
Proof.
  intros [N F]. induction g as [| a g IH]; [now elim N |].
  simpl in F. apply andb_true_iff in F as [A F].
  destruct g as [| b g].
  - exists EmptyString, a. auto.
  - destruct (IH ltac:(discriminate) F) as (init & c & E & C).
    exists (String a init), c. simpl. now rewrite <- E.
Qed.

Lemma dashed_chars segments :
  Forall Segment segments ->
  string_forallb is_longName_char (dashed segments) = true.
Proof.
  induction 1 as [| g rest [_ G] _ IH]; simpl; [reflexivity |].
  rewrite string_forallb_app, IH, andb_true_r.
  apply (string_forallb_impl is_lower_alnum); [| exact G].
  intros c C. unfold is_longName_char. now rewrite C.
Qed.

Lemma dashed_last segments :
  segments <> [] -> Forall Segment segments ->
  exists init c,
    dashed segments = init ++ String c EmptyString /\ is_lower_alnum c = true.
Proof.
  intros N F. induction F as [| g rest G F IH]; [now elim N |].
  destruct rest as [| g' rest].
  - destruct (Segment_last g G) as (init & c & -> & C).
    exists (String "-" init), c. simpl. now rewrite append_nil_r.
  - destruct (IH ltac:(discriminate)) as (init & c & E & C).
    exists ("-" ++ g ++ init), c. split; [| exact C].
    change (dashed (g :: g' :: rest)) with ("-" ++ g ++ dashed (g' :: rest)).
    rewrite E. simpl. now rewrite append_assoc.
Qed.

(** X10. A long name the constructor lets through begins with two dashes
    and a lower-case letter or digit, consists of lower-case letters, digits
    and dashes only, ends in a letter or digit, and is never a string the
    short-name pattern accepts. *)
Theorem accepted_longName_shape (s : string) :
  RegExp.test _longNameRegExp s = true ->
  (exists c rest,
      s = String "-" (String "-" (String c rest)) /\ is_lower_alnum c = true)
  /\ string_forallb is_longName_char s = true
  /\ (exists init c,
         s = init ++ String c EmptyString /\ is_lower_alnum c = true)
  /\ RegExp.test _shortNameRegExp s = false.
Proof.
  intros T. apply test_longName in T as (segments & N & F & ->).
  assert (H1 : exists c rest,
             "-" ++ dashed segments = String "-" (String "-" (String c rest))
             /\ is_lower_alnum c = true).
  { destruct F as [| g rest [G A] F]; [now elim N |].
    destruct g as [| c g]; [now elim G |].
    simpl in A. apply andb_true_iff in A as [C _].
    exists c, (g ++ dashed rest). auto. }
  split; [exact H1 | split; [| split]].
  - simpl. now apply dashed_chars.
  - destruct (dashed_last segments N F) as (init & c & -> & C).
    exists (String "-" init), c. auto.
  - apply test_shortName_false. intros (c & _ & E).
    destruct H1 as (c' & rest & E' & _). rewrite E' in E. discriminate E.
Qed.

Lemma accepted_longName_shape_witness :
  RegExp.test _longNameRegExp "--do-a-thing" = true
  /\ string_forallb is_longName_char "--do-a-thing" = true
  /\ RegExp.test _shortNameRegExp "--do-a-thing" = false.
Proof.
  destruct (accepted_longName_shape "--do-a-thing" eq_refl)
    as (_ & C & _ & S).
  split; [reflexivity | split; [exact C | exact S]].
Defined.

(** ** The description *)

Lemma base_setDescription_constructor text b :
  CommandLineParameter_constructor (base_setDescription text b) =
  match CommandLineParameter_constructor b with
  | Normal _ => Normal (baseInstance (base_setDescription text b))
  | Throw e => Throw e
  end.
Proof.
  rewrite !base_constructor_eq. simpl.
  destruct (RegExp.test _longNameRegExp _); [| reflexivity].
  destruct (truthy _ && _); reflexivity.
Qed.

Lemma withArgument_setDescription_throw text a e :
  CommandLineParameterWithArgument_constructor
    (withArgument_setDescription text a) = Throw e <->
  CommandLineParameterWithArgument_constructor a = Throw e.
Proof.
  destruct (CommandLineParameter_constructor (D.withArgument_base a))
    as [super_ | e0] eqn:B.
  - rewrite (withArgument_constructor_eq a super_ B).
    rewrite (withArgument_constructor_eq (withArgument_setDescription text a)
               (baseInstance (base_setDescription text (D.withArgument_base a))))
      by (simpl; now rewrite base_setDescription_constructor, B).
    simpl. destruct (D.argumentName a) as [n |]; [| reflexivity].
    destruct (String.eqb n EmptyString); [reflexivity |].
    destruct (units_eqb (toUpperCase n) (codeUnits n)); [| reflexivity].
    destruct (RegExp.String_match n _); [reflexivity |].
    split; discriminate.
  - unfold CommandLineParameterWithArgument_constructor. simpl.
    rewrite base_setDescription_constructor, B. reflexivity.
Qed.

Lemma bind_Normal_throw {A B : Type} (m : Completion A) (f : A -> B) e :
  (x <- m ;; Normal (f x)) = Throw e <-> m = Throw e.
Proof.
  destruct m as [a | e0]; simpl; split; intros H;
    try discriminate H; now injection H as ->.
Qed.

(** X11. The description is never validated: replacing it by any other
    text changes neither whether construction completes nor the exception
    it throws. *)
Theorem description_not_validated
    (text : string) (d : AnyDefinition) (e : Exception) :
  (construct (setDescription text d) = Throw e <-> construct d = Throw e)
  /\ (completes (construct (setDescription text d))
      <-> completes (construct d)).
Proof.
  split.
  - destruct d as [c | b | a | a | a]; simpl; rewrite !bind_Normal_throw.
    + destruct (CommandLineParameter_constructor
                  (D.withArgument_base (D.choice_base c)))
        as [super_ | e0] eqn:B.
      * rewrite (choice_constructor_eq c super_ B).
        rewrite (choice_constructor_eq _
                   (baseInstance
                      (base_setDescription text
                         (D.withArgument_base (D.choice_base c)))))
          by (simpl; now rewrite base_setDescription_constructor, B).
        simpl. destruct (Z.of_nat _ <=? 1)%Z; [reflexivity |].
        destruct (truthy _ && _); [reflexivity |].
        split; discriminate.
      * unfold CommandLineChoiceParameter_constructor. simpl.
        rewrite base_setDescription_constructor, B. reflexivity.
    + unfold CommandLineFlagParameter_constructor.
      rewrite base_setDescription_constructor.
      destruct (CommandLineParameter_constructor b); [| reflexivity].
      split; discriminate.
    + apply withArgument_setDescription_throw.
    + apply withArgument_setDescription_throw.
    + apply withArgument_setDescription_throw.
  - rewrite !construct_completes_iff. unfold Accepted, NamesAccepted.
    destruct d; simpl; reflexivity.
Qed.

(** ** Which exceptions a class can throw *)

Lemma base_throw_MessageOf def e :
  CommandLineParameter_constructor def = Throw e ->
  exists c m,
    e = Error m /\ MessageOf c m /\ (c = LongNameCheck \/ c = ShortNameCheck).
Proof.
  intros H. apply base_throw_cases in H as [[-> _] | [-> _]].
  - exists LongNameCheck. eexists. split; [reflexivity |].
    split; [constructor | auto].
  - exists ShortNameCheck. eexists. split; [reflexivity |].
    split; [constructor | auto].
Qed.

Lemma withArgument_throw_MessageOf a super_ e :
  CommandLineParameter_constructor (D.withArgument_base a) = Normal super_ ->
  CommandLineParameterWithArgument_constructor a = Throw e ->
  e = TypeError
  \/ exists c m,
       e = Error m /\ MessageOf c m
       /\ In c [EmptyArgumentNameCheck; UpperCaseCheck; InvalidCharacterCheck].
Proof.
  intros B H. rewrite (withArgument_constructor_eq a super_ B) in H.
  destruct (D.argumentName a) as [n |]; [| injection H as <-; auto].
  right. destruct (String.eqb n EmptyString).
  { injection H as <-. exists EmptyArgumentNameCheck. eexists.
    split; [reflexivity |]. split; [constructor | simpl; auto]. }
  destruct (units_eqb (toUpperCase n) (codeUnits n)).
  - destruct (RegExp.String_match n _); [| discriminate H].
    injection H as <-. exists InvalidCharacterCheck. eexists.
    split; [reflexivity |]. split; [constructor | simpl; auto].
  - injection H as <-. exists UpperCaseCheck. eexists.
    split; [reflexivity |]. split; [constructor | simpl; auto].
Qed.

(** X12. Every exception of a construction is either a [TypeError] or an
    [Error] whose message is that of one of the checks of the class: the two
    name checks for Flag; those and the alternatives and default checks for
    Choice; the name checks and the three argument-name checks for Integer,
    String and StringList. *)
Theorem thrown_by_own_checks (d : AnyDefinition) (e : Exception) :
  construct d = Throw e ->
  e = TypeError
  \/ exists c m, e = Error m /\ MessageOf c m /\ In c (checksOf (kindOf d)).
Proof.
  intros H.
  destruct (CommandLineParameter_constructor (baseOf d)) as [super_ | e0] eqn:B.
  - destruct d as [c | b | a | a | a]; simpl in B, H |- *;
      apply bind_Normal_throw in H.
    + right. rewrite (choice_constructor_eq c super_ B) in H.
      destruct (Z.of_nat _ <=? 1)%Z.
      { injection H as <-. exists AlternativesCheck. eexists.
        split; [reflexivity |]. split; [constructor | simpl; auto]. }
      destruct (truthy _ && _); [| discriminate H].
      injection H as <-. exists DefaultValueCheck. eexists.
      split; [reflexivity |]. split; [constructor | simpl; auto].
    + unfold CommandLineFlagParameter_constructor in H. rewrite B in H.
      discriminate H.
    + destruct (withArgument_throw_MessageOf a super_ e B H)
        as [-> | (c & m & -> & M & I)]; [auto | right].
      exists c, m. split; [reflexivity |]. split; [exact M |].
      simpl in I |- *. tauto.
    + destruct (withArgument_throw_MessageOf a super_ e B H)
        as [-> | (c & m & -> & M & I)]; [auto | right].
      exists c, m. split; [reflexivity |]. split; [exact M |].
      simpl in I |- *. tauto.
    + destruct (withArgument_throw_MessageOf a super_ e B H)
        as [-> | (c & m & -> & M & I)]; [auto | right].
      exists c, m. split; [reflexivity |]. split; [exact M |].
      simpl in I |- *. tauto.
  - rewrite (construct_base_throw d e0 B) in H. injection H as ->.
    right. destruct (base_throw_MessageOf _ _ B) as (c & m & -> & M & I).
    exists c, m. split; [reflexivity |]. split; [exact M |].
    destruct I as [-> | ->]; destruct d; simpl; auto.
Qed.

Lemma thrown_by_own_checks_witness :
  construct (ChoiceDefinition (sampleChoice None (Some "blue") ["red"; "green"]))
  = Throw (Error (defaultValueMessage "blue" ["red"; "green"]))
  /\ (Error (defaultValueMessage "blue" ["red"; "green"]) = TypeError
      \/ exists c m,
           Error (defaultValueMessage "blue" ["red"; "green"]) = Error m
           /\ MessageOf c m /\ In c (checksOf Choice)).
Proof.
  split; [reflexivity |].
  exact (thrown_by_own_checks
           (ChoiceDefinition (sampleChoice None (Some "blue") ["red"; "green"]))
           (Error (defaultValueMessage "blue" ["red"; "green"])) eq_refl).
Defined.
